(** * render_files.py: BMH injection into the bootstrap ignition, and artifact upload

    A shallow embedding of [src/render_files.py].  The script talks to the
    outside world (files, an inventory service, an object store), so the
    embedding threads an explicit [World] -- the files on disk and the log of
    the externally visible calls made so far -- through a small state and
    exception monad.  Python exceptions are values of type [exn]; a
    computation either returns ([Ok]) or raises ([Raise]). *)

From stdpp Require Import base strings list gmap.
From Stdlib Require Import ZArith Lia Ascii.

Local Open Scope string_scope.
Set Warnings "-register-all".

(** ** Python exceptions *)

(** The exception classes the script can meet.  [NonException] stands for the
    classes that derive from [BaseException] but not from [Exception]
    ([KeyboardInterrupt], [SystemExit], [GeneratorExit]): the clause
    [except Exception] of [update_bmh_files] does not catch them. *)
Inductive exn_class :=
  | Exception
  | KeyError
  | TypeError
  | FileNotFoundError
  | NoCredentialsError
  | OtherException (name : string)
  | NonException (name : string).

(** An exception object: its class and [str(ex)], the text that
    ['{}'.format(ex)] produces. *)
Record exn := Exn { exn_class_of : exn_class; exn_str : string }.

(** [isinstance(ex, Exception)]. *)
Definition is_Exception (e : exn) : bool :=
  match exn_class_of e with
  | NonException _ => false
  | _ => true
  end.

(** [isinstance(ex, NoCredentialsError)]. *)
Definition is_NoCredentialsError (e : exn) : bool :=
  match exn_class_of e with
  | NoCredentialsError => true
  | _ => false
  end.

Inductive result (A : Type) :=
  | Ok (a : A)
  | Raise (e : exn).
Arguments Ok {A} a.
Arguments Raise {A} e.

#[global] Instance result_ret : MRet result := λ A a, Ok a.
#[global] Instance result_bind : MBind result := λ A B f r,
  match r with
  | Ok a => f a
  | Raise e => Raise e
  end.

Definition is_Raise {A} (r : result A) : bool :=
  match r with
  | Ok _ => false
  | Raise _ => true
  end.

(** ** The decoded document *)

(** What [json.load] builds: [None], [bool], [int], [float], [str], [list]
    and [dict].  A [dict] keeps its keys in insertion order and [json.dump]
    writes them in that order, so it is an association list.  A [float] is
    never inspected by the script and is kept as its printed form. *)
Inductive json :=
  | JNull
  | JBool (b : bool)
  | JInt (z : Z)
  | JFloat (repr : string)
  | JStr (s : string)
  | JArr (items : list json)
  | JObj (fields : list (string * json)).

Fixpoint assoc_get (k : string) (fields : list (string * json)) : option json :=
  match fields with
  | [] => None
  | (k', v) :: rest => if String.eqb k k' then Some v else assoc_get k rest
  end.

(** Assignment to an existing key keeps the key at its position. *)
Fixpoint assoc_set (k : string) (v : json) (fields : list (string * json))
  : list (string * json) :=
  match fields with
  | [] => [(k, v)]
  | (k', v') :: rest =>
      if String.eqb k k' then (k', v) :: rest else (k', v') :: assoc_set k v rest
  end.

Definition type_name (d : json) : string :=
  match d with
  | JNull => "NoneType"
  | JBool _ => "bool"
  | JInt _ => "int"
  | JFloat _ => "float"
  | JStr _ => "str"
  | JArr _ => "list"
  | JObj _ => "dict"
  end.

(** [d[k]] for a string key [k].  Only a [dict] can be subscripted with a
    string; the texts of the [TypeError]s are the interpreter's diagnostics
    and play no part below. *)
Definition getitem (d : json) (k : string) : result json :=
  match d with
  | JObj fields =>
      match assoc_get k fields with
      | Some v => Ok v
      | None => Raise (Exn KeyError ("'" +:+ k +:+ "'"))
      end
  | JArr _ => Raise (Exn TypeError "list indices must be integers or slices, not str")
  | JStr _ => Raise (Exn TypeError "string indices must be integers")
  | _ => Raise (Exn TypeError ("'" +:+ type_name d +:+ "' object is not subscriptable"))
  end.

(** [d[k] = v] as a function on the tree; it is used only to write back, at
    a key that was just read, a child that was mutated in place. *)
Definition setitem (d : json) (k : string) (v : json) : json :=
  match d with
  | JObj fields => JObj (assoc_set k v fields)
  | _ => d
  end.

Fixpoint chars (s : string) : list json :=
  match s with
  | EmptyString => []
  | String c rest => JStr (String c EmptyString) :: chars rest
  end.

(** What [for x in d] ranges over: the items of a list, the keys of a dict,
    the characters of a string; anything else is not iterable. *)
Definition py_iter (d : json) : result (list json) :=
  match d with
  | JArr items => Ok items
  | JObj fields => Ok (map (λ kv, JStr kv.1) fields)
  | JStr s => Ok (chars s)
  | _ => Raise (Exn TypeError ("'" +:+ type_name d +:+ "' object is not iterable"))
  end.

(** The loop of [update_bmh_files] mutates the dicts of [storage_files] in
    place.  Seen from [data], the list object now holds the mutated dicts;
    keys of a dict and characters of a string are immutable, so a container
    of another kind is as it was. *)
Definition with_items (storage_files : json) (items' : list json) : json :=
  match storage_files with
  | JArr _ => JArr items'
  | _ => storage_files
  end.

(** ** The world *)

(** The calls that leave the process, in the order they are made. *)
Inductive event :=
  | EvGetInventoryHosts (endpoint cluster_id : string)
  | EvGetTestListHosts (cluster_id : string)
  | EvLogInfo (msg : string)
  | EvPrint (text : string)
  | EvOpenRead (path : string)
  | EvUpdateBmhCrFile (file_data : json)
  | EvOpenWrite (path : string)
  | EvWrite (path text : string)
  | EvUploadFile (local_file bucket s3_file : string).

(** The effect of a call on the files: [open(path, "w")] creates the file or
    truncates it at once; what is written through the file object is
    appended, and is on disk when the [with] block closes the file. *)
Definition fs_step (e : event) (files : gmap string string) : gmap string string :=
  match e with
  | EvOpenWrite path => <[path := ""]> files
  | EvWrite path text => <[path := default "" (files !! path) +:+ text]> files
  | _ => files
  end.

Record World := MkWorld { fs : gmap string string; trace : list event }.

(** ** The monad *)

Definition M (A : Type) : Type := World → result A * World.

#[global] Instance M_ret : MRet M := λ A a w, (Ok a, w).
#[global] Instance M_bind : MBind M := λ A B f m w,
  match m w with
  | (Ok a, w') => f a w'
  | (Raise e, w') => (Raise e, w')
  end.

Definition raise {A} (e : exn) : M A := λ w, (Raise e, w).

Definition lift {A} (r : result A) : M A := λ w, (r, w).

(** Every change of the files goes through [emit]. *)
Definition emit (e : event) : M unit :=
  λ w, (Ok (), MkWorld (fs_step e (fs w)) (trace w ++ [e])).

(** [try: body  except Exception as ex: handler ex]. *)
Definition try_except_Exception {A} (body : M A) (handler : exn → M A) : M A :=
  λ w, match body w with
       | (Raise e, w') => if is_Exception e then handler e w' else (Raise e, w')
       | ok => ok
       end.

(** [try: body  except NoCredentialsError: handler]. *)
Definition try_except_NoCredentialsError {A} (body : M A) (handler : M A) : M A :=
  λ w, match body w with
       | (Raise e, w') => if is_NoCredentialsError e then handler w' else (Raise e, w')
       | ok => ok
       end.

(** ** The collaborators of [update_bmh_files]

    [utils], [test_utils] and [bmh_utils] are modules of the repository whose
    code is not part of this development, and [json] is the standard
    library's; [update_bmh_files] is verified against their interfaces.

    [Hosts] is the object the inventory returns.  [update_bmh_cr_file]
    receives the dict [file_data] and that object, and may mutate both in
    place: it is a function from their states before the call to their states
    after it (or to the exception it raises).  It is given nothing else, so
    it can reach neither the other entries of the document nor the list that
    holds them.

    None of the collaborators reads or writes the files of the model; the
    calls that [update_bmh_files] makes to the two providers and to the
    mutator are recorded in the log.

    [json_dump d] is the text that [json.dump(d, file_obj)] writes through
    the file object and, when it stops early, the exception it raises
    (a value that cannot be serialised, or an error of the device); the text
    is then only what was written before the failure. *)
Class Collaborators := {
  Hosts : Type;
  get_inventory_hosts : string → string → result Hosts;
  get_test_list_hosts : string → result Hosts;
  is_bmh_cr_file : json → result bool;
  update_bmh_cr_file : json → Hosts → result (json * Hosts);
  json_load : string → result json;
  json_dump : json → string * option exn;
}.

(** ** [update_bmh_files] *)

(** Truth value of [inventory_endpoint], which [main] reads from the
    environment: [None] and the empty string are false. *)
Definition truthy (s : option string) : bool :=
  match s with
  | Some (String _ _) => true
  | _ => false
  end.

Definition failed_to_update : string :=
  "Failed to update BMH CRs in bootstrap ignition, exception: ".

Section UpdateBmhFiles.
Context `{Collaborators}.

(** Lines 43-47. *)
Definition resolve_hosts_list (cluster_id : string) (inventory_endpoint : option string)
  : M Hosts :=
  if truthy inventory_endpoint then
    let endpoint := default "" inventory_endpoint in
    emit (EvGetInventoryHosts endpoint cluster_id);;
    lift (get_inventory_hosts endpoint cluster_id)
  else
    emit (EvLogInfo "Using test data to get hosts list");;
    emit (EvGetTestListHosts cluster_id);;
    lift (get_test_list_hosts cluster_id).

(** [open(path, "r")] followed by reading the whole file. *)
Definition read_text (path : string) : M string :=
  λ w, match fs w !! path with
       | Some text => (Ok text, w)
       | None =>
           (Raise (Exn FileNotFoundError
                     ("[Errno 2] No such file or directory: '" +:+ path +:+ "'")), w)
       end.

Definition open_read (path : string) : M string :=
  emit (EvOpenRead path);; read_text path.

(** Lines 53-55: the loop over [storage_files].  It returns the entries as
    the loop leaves them, and the host object as the last call left it. *)
Fixpoint for_file_data (storage_files : list json) (hosts_list : Hosts)
  : M (list json * Hosts) :=
  match storage_files with
  | [] => mret ([], hosts_list)
  | file_data :: rest =>
      path ← lift (getitem file_data "path");
      is_bmh ← lift (is_bmh_cr_file path);
      '(file_data', hosts_list') ←
        (if is_bmh : bool then
           emit (EvUpdateBmhCrFile file_data);;
           lift (update_bmh_cr_file file_data hosts_list)
         else mret (file_data, hosts_list));
      '(rest', hosts_list'') ← for_file_data rest hosts_list';
      mret (file_data' :: rest', hosts_list'')
  end.

(** Lines 43-55: everything before the document is opened for writing.
    The result is [data] as the loop left it. *)
Definition decode_and_update (ignition_file cluster_id : string)
    (inventory_endpoint : option string) : M json :=
  hosts_list ← resolve_hosts_list cluster_id inventory_endpoint;
  text ← open_read ignition_file;
  data ← lift (json_load text);
  storage ← lift (getitem data "storage");
  storage_files ← lift (getitem storage "files");
  items ← lift (py_iter storage_files);
  '(items', _) ← for_file_data items hosts_list;
  mret (setitem data "storage"
          (setitem storage "files" (with_items storage_files items'))).

(** Lines 57-58.  The files of the model carry no permissions: a file can
    always be opened for writing.  What can go wrong is the write. *)
Definition persist (ignition_file : string) (data : json) : M unit :=
  emit (EvOpenWrite ignition_file);;
  emit (EvWrite ignition_file (json_dump data).1);;
  match (json_dump data).2 with
  | None => mret ()
  | Some e => raise e
  end.

(** The body of the [try]. *)
Definition update_bmh_files_body (ignition_file cluster_id : string)
    (inventory_endpoint : option string) : M unit :=
  data ← decode_and_update ignition_file cluster_id inventory_endpoint;
  persist ignition_file data.

Definition update_bmh_files (ignition_file cluster_id : string)
    (inventory_endpoint : option string) : M unit :=
  try_except_Exception
    (update_bmh_files_body ignition_file cluster_id inventory_endpoint)
    (λ ex, raise (Exn Exception (failed_to_update +:+ exn_str ex))).
End UpdateBmhFiles.

(** ** The upload of the artifacts *)

(** [boto3] and the directory listing of [os.walk] are outside the
    repository.  [upload_file client log local_file bucket s3_file] is what
    the call [s3_client.upload_file(local_file, bucket, s3_file,
    ExtraArgs={'ACL': 'public-read'})] does: it returns ([None]) or raises;
    the outcome may depend on every call made before ([log]). *)
Class ObjectStore := {
  S3Client : Type;
  boto3_client :
    string → string → string → string → result S3Client;
  upload_file : S3Client → list event → string → string → string → option exn;
  os_walk : string → list (string * list string * list string);
}.

Fixpoint ends_with_slash (a : string) : bool :=
  match a with
  | EmptyString => false
  | String c EmptyString => Ascii.eqb c "/"%char
  | String _ rest => ends_with_slash rest
  end.

(** [os.path.join(a, b)] of [posixpath] for two components. *)
Definition os_path_join (a b : string) : string :=
  match b with
  | String "/"%char _ => b
  | _ =>
      match a with
      | EmptyString => b
      | _ => if ends_with_slash a then a +:+ b else a +:+ "/" +:+ b
      end
  end.

(** Lines 71-73 and 83-85: the object key of a file. *)
Definition s3_file_name_of (prefix file_name : string) : string :=
  let file_name :=
    if String.eqb file_name "kubeconfig" then "kubeconfig-noingress" else file_name in
  prefix +:+ "/" +:+ file_name.

Section Upload.
Context `{ObjectStore}.

Definition get_s3_client (s3_endpoint_url aws_access_key_id aws_secret_access_key : string)
  : M S3Client :=
  lift (boto3_client "s3" aws_access_key_id aws_secret_access_key s3_endpoint_url).

Definition call_upload_file (s3_client : S3Client) (local_file bucket s3_file : string)
  : M unit :=
  λ w, match upload_file s3_client (trace w) local_file bucket s3_file with
       | None => (Ok (), w)
       | Some e => (Raise e, w)
       end.

Definition upload_to_aws (s3_client : S3Client) (local_file bucket s3_file : string)
  : M bool :=
  try_except_NoCredentialsError
    (emit (EvUploadFile local_file bucket s3_file);;
     call_upload_file s3_client local_file bucket s3_file;;
     emit (EvPrint "Upload Successful");;
     mret true)
    (emit (EvPrint "Credentials not available");;
     mret false).

(** Lines 68-75: the files of one directory. *)
Fixpoint for_file_name (s3_client : S3Client) (bucket prefix root : string)
    (files : list string) : M unit :=
  match files with
  | [] => mret ()
  | file_name :: rest =>
      emit (EvLogInfo ("Uploading file: " +:+ file_name));;
      let file_path := os_path_join root file_name in
      let s3_file_name := s3_file_name_of prefix file_name in
      emit (EvPrint s3_file_name);;
      upload_to_aws s3_client file_path bucket s3_file_name;;
      for_file_name s3_client bucket prefix root rest
  end.

(** Line 67: the directories that [os.walk] yields. *)
Fixpoint for_walk (s3_client : S3Client) (bucket prefix : string)
    (walk : list (string * list string * list string)) : M unit :=
  match walk with
  | [] => mret ()
  | (root, _, files) :: rest =>
      for_file_name s3_client bucket prefix root files;;
      for_walk s3_client bucket prefix rest
  end.

Definition upload_to_s3 (s3_endpoint_url bucket aws_access_key_id aws_secret_access_key
    install_dir cluster_id : string) : M unit :=
  s3_client ← get_s3_client s3_endpoint_url aws_access_key_id aws_secret_access_key;
  let prefix := cluster_id in
  for_walk s3_client bucket prefix (os_walk install_dir).

Fixpoint debug_for_file_name (prefix root : string) (files : list string) : M unit :=
  match files with
  | [] => mret ()
  | file_name :: rest =>
      let file_path := os_path_join root file_name in
      let s3_file_name := s3_file_name_of prefix file_name in
      emit (EvPrint ("Uploading file " +:+ file_path +:+ " as object " +:+ s3_file_name));;
      debug_for_file_name prefix root rest
  end.

Fixpoint debug_for_walk (prefix : string)
    (walk : list (string * list string * list string)) : M unit :=
  match walk with
  | [] => mret ()
  | (root, _, files) :: rest =>
      debug_for_file_name prefix root files;;
      debug_for_walk prefix rest
  end.

Definition debug_print_upload_to_s3 (install_dir : string) : M unit :=
  let prefix := "dummy_cluster_id" in
  debug_for_walk prefix (os_walk install_dir).
End Upload.

(** The files that [os.walk] lists, with their directory, in the order of
    the two nested loops. *)
Definition walked_files (walk : list (string * list string * list string))
  : list (string * string) :=
  flat_map (λ '(root, _, files), map (λ file_name, (root, file_name)) files) walk.

(** The call that lines 70-75 make for each of them. *)
Definition upload_requests (bucket prefix : string)
    (walk : list (string * list string * list string))
  : list (string * string * string) :=
  map (λ '(root, file_name),
         (os_path_join root file_name, bucket, s3_file_name_of prefix file_name))
      (walked_files walk).

(** The [upload_file] calls recorded in a log. *)
Definition uploads (log : list event) : list (string * string * string) :=
  flat_map (λ e, match e with
                 | EvUploadFile local_file bucket s3_file => [(local_file, bucket, s3_file)]
                 | _ => []
                 end) log.

(** ** A codec to run the functions on

    [json.load] and [json.dump] enter the development as the interface
    [json_load], [json_dump].  [MiniJson] is an instance for a fragment of
    JSON (no floats; in strings only the quote and the backslash are
    escaped), printed the way [json.dump] prints with its default
    separators.  It serves to evaluate the functions on concrete documents. *)
Module MiniJson.
Definition dquote : ascii := "034"%char.
Definition backslash : ascii := "092"%char.

Fixpoint escape (s : string) : string :=
  match s with
  | EmptyString => EmptyString
  | String c rest =>
      if Ascii.eqb c dquote || Ascii.eqb c backslash
      then String backslash (String c (escape rest))
      else String c (escape rest)
  end.

Definition quote (s : string) : string :=
  String dquote (escape s +:+ String dquote EmptyString).

Fixpoint join (sep : string) (parts : list string) : string :=
  match parts with
  | [] => ""
  | [p] => p
  | p :: rest => p +:+ sep +:+ join sep rest
  end.

Fixpoint print (d : json) : string :=
  match d with
  | JNull => "null"
  | JBool true => "true"
  | JBool false => "false"
  | JInt z => pretty.pretty z
  | JFloat repr => repr
  | JStr s => quote s
  | JArr items => "[" +:+ join ", " (map print items) +:+ "]"
  | JObj fields =>
      "{" +:+ join ", " (map (λ kv, quote kv.1 +:+ ": " +:+ print kv.2) fields) +:+ "}"
  end.

Definition is_space (c : ascii) : bool :=
  Ascii.eqb c " " || Ascii.eqb c "010" || Ascii.eqb c "009" || Ascii.eqb c "013".

Fixpoint skip_ws (s : string) : string :=
  match s with
  | String c rest => if is_space c then skip_ws rest else s
  | EmptyString => EmptyString
  end.

(** The rest of [s] after the prefix [p]. *)
Fixpoint after (p s : string) : option string :=
  match p, s with
  | EmptyString, _ => Some s
  | String a p', String b s' => if Ascii.eqb a b then after p' s' else None
  | _, _ => None
  end.

(** The characters up to the closing quote, and what follows it. *)
Fixpoint parse_chars (s : string) : option (string * string) :=
  match s with
  | EmptyString => None
  | String c rest =>
      if Ascii.eqb c dquote then Some (EmptyString, rest)
      else if Ascii.eqb c backslash then
        match rest with
        | String c' rest' =>
            if Ascii.eqb c' dquote || Ascii.eqb c' backslash then
              match parse_chars rest' with
              | Some (body, r) => Some (String c' body, r)
              | None => None
              end
            else None
        | EmptyString => None
        end
      else
        match parse_chars rest with
        | Some (body, r) => Some (String c body, r)
        | None => None
        end
  end.

Definition digit_of (c : ascii) : option Z :=
  let n := nat_of_ascii c in
  if (48 <=? n)%nat && (n <=? 57)%nat then Some (Z.of_nat (n - 48)) else None.

Fixpoint parse_digits (s : string) (acc : Z) : Z * string :=
  match s with
  | String c rest =>
      match digit_of c with
      | Some d => parse_digits rest (10 * acc + d)
      | None => (acc, s)
      end
  | EmptyString => (acc, s)
  end.

Definition parse_nat (s : string) : option (Z * string) :=
  match s with
  | String c _ =>
      match digit_of c with
      | Some _ => Some (parse_digits s 0)
      | None => None
      end
  | EmptyString => None
  end.

Section Containers.
Variable parse : string → option (json * string).

Fixpoint parse_elems (n : nat) (s : string) : option (list json * string) :=
  match n with
  | O => None
  | S n' =>
      match parse s with
      | Some (v, r) =>
          match skip_ws r with
          | String "," r' =>
              match parse_elems n' r' with
              | Some (vs, r'') => Some (v :: vs, r'')
              | None => None
              end
          | String "]" r' => Some ([v], r')
          | _ => None
          end
      | None => None
      end
  end.

Definition parse_member (s : string) : option (string * json * string) :=
  match skip_ws s with
  | String c r =>
      if Ascii.eqb c dquote then
        match parse_chars r with
        | Some (k, r') =>
            match skip_ws r' with
            | String ":" r'' =>
                match parse r'' with
                | Some (v, r''') => Some (k, v, r''')
                | None => None
                end
            | _ => None
            end
        | None => None
        end
      else None
  | EmptyString => None
  end.

Fixpoint parse_members (n : nat) (s : string)
  : option (list (string * json) * string) :=
  match n with
  | O => None
  | S n' =>
      match parse_member s with
      | Some (k, v, r) =>
          match skip_ws r with
          | String "," r' =>
              match parse_members n' r' with
              | Some (kvs, r'') => Some ((k, v) :: kvs, r'')
              | None => None
              end
          | String "}" r' => Some ([(k, v)], r')
          | _ => None
          end
      | None => None
      end
  end.
End Containers.

Fixpoint parse_value (fuel : nat) (s : string) : option (json * string) :=
  match fuel with
  | O => None
  | S fuel' =>
      match skip_ws s with
      | String "[" r =>
          match skip_ws r with
          | String "]" r' => Some (JArr [], r')
          | _ =>
              match parse_elems (parse_value fuel') fuel' r with
              | Some (vs, r') => Some (JArr vs, r')
              | None => None
              end
          end
      | String "{" r =>
          match skip_ws r with
          | String "}" r' => Some (JObj [], r')
          | _ =>
              match parse_members (parse_value fuel') fuel' r with
              | Some (kvs, r') => Some (JObj kvs, r')
              | None => None
              end
          end
      | String "-" r =>
          match parse_nat r with
          | Some (z, r') => Some (JInt (- z), r')
          | None => None
          end
      | String c r as s' =>
          if Ascii.eqb c dquote then
            match parse_chars r with
            | Some (body, r') => Some (JStr body, r')
            | None => None
            end
          else
            match after "null" s', after "true" s', after "false" s' with
            | Some r', _, _ => Some (JNull, r')
            | _, Some r', _ => Some (JBool true, r')
            | _, _, Some r' => Some (JBool false, r')
            | _, _, _ =>
                match parse_nat s' with
                | Some (z, r') => Some (JInt z, r')
                | None => None
                end
            end
      | EmptyString => None
      end
  end.

Definition decode_error : exn :=
  Exn (OtherException "JSONDecodeError") "Expecting value".

Definition load (text : string) : result json :=
  match parse_value (S (String.length text)) text with
  | Some (d, r) =>
      match skip_ws r with
      | EmptyString => Ok d
      | _ => Raise decode_error
      end
  | None => Raise decode_error
  end.

Definition dump (d : json) : string * option exn := (print d, None).

Definition no_space : exn :=
  Exn (OtherException "OSError") "[Errno 28] No space left on device".

(** The same encoder on a device that takes [room] characters and then
    fails. *)
Definition dump_on_device (room : nat) (d : json) : string * option exn :=
  let text := print d in
  if (String.length text <=? room)%nat then (text, None)
  else (String.substring 0 room text, Some no_space).
End MiniJson.

(** ** The manifest mutator and the host records *)

(** Modelled from the spec: the host record that [utils.get_inventory_hosts]
    and [test_utils.get_test_list_hosts] return, neither of which is part of
    the sources at hand (3, HostRecord: a stable identifier and a MAC
    address). *)
Record HostRecord := MkHost { host_id : string; host_mac : string }.

(** Modelled from the spec: the codec of an embedded manifest inside
    [bmh_utils.update_bmh_cr_file], which is missing from the sources (4.2):
    decoding the contents of an entry into a manifest, overwriting the
    hardware and network fields from a host record, and encoding the manifest
    again in the envelope of the original contents. *)
Class ManifestCodec := {
  Manifest : Type;
  decode_manifest : json → result Manifest;
  overwrite_hardware : HostRecord → Manifest → Manifest;
  encode_manifest : json → Manifest → result json;
}.

(** Modelled from the spec: the CorrelationError of 7, raised inside
    [bmh_utils.update_bmh_cr_file], which is missing from the sources. *)
Definition correlation_error : exn :=
  Exn (OtherException "CorrelationError")
      "fewer host records than qualifying manifests".

(** Modelled from the spec: [bmh_utils.update_bmh_cr_file], which is missing
    from the sources (4.2).  Decode the contents, select the host record at
    the ordinal position of the manifest, overwrite the hardware fields,
    encode again, change nothing but the contents; fail with a correlation
    error when the host list has no record at that position.  The caller
    passes the entry and the host object only, so the position lives in the
    host object: it holds the records not yet used, and its head is the
    record at the ordinal position of the manifest at hand. *)
Definition spec_update_bmh_cr_file `{ManifestCodec}
    (file_data : json) (hosts_list : list HostRecord)
  : result (json * list HostRecord) :=
  contents ← getitem file_data "contents";
  manifest ← decode_manifest contents;
  match hosts_list with
  | [] => Raise correlation_error
  | host :: unused =>
      contents' ← encode_manifest contents (overwrite_hardware host manifest);
      Ok (setitem file_data "contents" contents', unused)
  end.

(** The collaborators with the mutator of the specification. *)
Definition spec_collaborators `{ManifestCodec}
    (inventory : string → string → result (list HostRecord))
    (test_hosts : string → result (list HostRecord))
    (locator : json → result bool)
    (load : string → result json) (dump : json → string * option exn)
  : Collaborators :=
  {| Hosts := list HostRecord;
     get_inventory_hosts := inventory;
     get_test_list_hosts := test_hosts;
     is_bmh_cr_file := locator;
     update_bmh_cr_file := spec_update_bmh_cr_file;
     json_load := load;
     json_dump := dump |}.

(** ** Vocabulary of the statements *)

Section Vocabulary.
Context {C : Collaborators}.

(** The host list that lines 43-47 obtain, and the calls they make. *)
Definition hosts_result (cluster_id : string) (inventory_endpoint : option string)
  : result Hosts :=
  match inventory_endpoint with
  | Some (String c s) => get_inventory_hosts (String c s) cluster_id
  | _ => get_test_list_hosts cluster_id
  end.

(** An entry qualifies when [is_bmh_cr_file] accepts its path. *)
Definition qualifies (file_data : json) : bool :=
  match getitem file_data "path" ≫= is_bmh_cr_file with
  | Ok true => true
  | _ => false
  end.

(** One turn of the loop took the entry [e] to [e']. *)
Definition entry_step (e e' : json) : Prop :=
  ∃ path, getitem e "path" = Ok path ∧
    ((is_bmh_cr_file path = Ok false ∧ e' = e) ∨
     (is_bmh_cr_file path = Ok true ∧
      ∃ hosts hosts', update_bmh_cr_file e hosts = Ok (e', hosts'))).

(** [data'] is [data] after every entry of its storage.files went through
    one turn of the loop. *)
Definition updated_document (data data' : json) : Prop :=
  ∃ storage storage_files items items',
    getitem data "storage" = Ok storage ∧
    getitem storage "files" = Ok storage_files ∧
    py_iter storage_files = Ok items ∧
    Forall2 entry_step items items' ∧
    data' = setitem data "storage"
              (setitem storage "files" (with_items storage_files items')).

(** The ways in which lines 43-55 raise [ex]: the host list cannot be
    obtained; the file cannot be opened; its text cannot be decoded; the
    document has no storage.files to iterate over; or a turn of the loop
    raises, in reading the path, in [is_bmh_cr_file] or in
    [update_bmh_cr_file]. *)
Inductive fails_before_persist (ignition_file cluster_id : string)
    (inventory_endpoint : option string) (w : World) (ex : exn) : Prop :=
  | fails_hosts :
      hosts_result cluster_id inventory_endpoint = Raise ex →
      fails_before_persist ignition_file cluster_id inventory_endpoint w ex
  | fails_open hosts :
      hosts_result cluster_id inventory_endpoint = Ok hosts →
      fs w !! ignition_file = None →
      ex = Exn FileNotFoundError
             ("[Errno 2] No such file or directory: '" +:+ ignition_file +:+ "'") →
      fails_before_persist ignition_file cluster_id inventory_endpoint w ex
  | fails_load hosts text :
      hosts_result cluster_id inventory_endpoint = Ok hosts →
      fs w !! ignition_file = Some text →
      json_load text = Raise ex →
      fails_before_persist ignition_file cluster_id inventory_endpoint w ex
  | fails_shape hosts text data :
      hosts_result cluster_id inventory_endpoint = Ok hosts →
      fs w !! ignition_file = Some text →
      json_load text = Ok data →
      (getitem data "storage" ≫= λ storage,
         getitem storage "files" ≫= py_iter) = Raise ex →
      fails_before_persist ignition_file cluster_id inventory_endpoint w ex
  | fails_loop hosts text data items w0 :
      hosts_result cluster_id inventory_endpoint = Ok hosts →
      fs w !! ignition_file = Some text →
      json_load text = Ok data →
      (getitem data "storage" ≫= λ storage,
         getitem storage "files" ≫= py_iter) = Ok items →
      (for_file_data items hosts w0).1 = Raise ex →
      fails_before_persist ignition_file cluster_id inventory_endpoint w ex.

(** Lines 49-58 for the host list [hosts_list] that lines 43-47 have bound:
    the document is read and decoded, the loop runs over its entries with
    [hosts_list], and the document is written back. *)
Definition update_with_hosts_list (ignition_file : string) (hosts_list : Hosts)
  : M unit :=
  text ← open_read ignition_file;
  data ← lift (json_load text);
  storage ← lift (getitem data "storage");
  storage_files ← lift (getitem storage "files");
  items ← lift (py_iter storage_files);
  '(items', _) ← for_file_data items hosts_list;
  persist ignition_file
    (setitem data "storage"
       (setitem storage "files" (with_items storage_files items'))).

(** The number of qualifying entries. *)
Definition qualifying (items : list json) : nat :=
  length (List.filter qualifies items).

(** The contract of the mutator in the specification: it returns the entry
    with only its contents changed. *)
Definition changes_only_contents : Prop :=
  ∀ e hosts e' hosts',
    update_bmh_cr_file e hosts = Ok (e', hosts') →
    ∃ contents', e' = setitem e "contents" contents'.
End Vocabulary.

(** The calls of lines 43-47. *)
Definition hosts_events (cluster_id : string) (inventory_endpoint : option string)
  : list event :=
  match inventory_endpoint with
  | Some (String c s) => [EvGetInventoryHosts (String c s) cluster_id]
  | _ => [EvLogInfo "Using test data to get hosts list"; EvGetTestListHosts cluster_id]
  end.

(** The exception that line 60 raises for the exception [ex] it caught. *)
Definition wrapped (ex : exn) : exn :=
  Exn Exception (failed_to_update +:+ exn_str ex).

(** What leaves [update_bmh_files] when its body raises [ex]. *)
Definition surfaced (ex : exn) : exn :=
  if is_Exception ex then wrapped ex else ex.

(** An entry that gives the mutator of the specification no reason to fail
    other than a missing host: its path can be read and classified and, when
    it qualifies, its contents decode to a manifest that can be encoded again
    whichever host is written into it. *)
Definition well_formed_entry `{ManifestCodec} (locator : json → result bool)
    (e : json) : Prop :=
  ∃ path (is_bmh : bool),
    getitem e "path" = Ok path ∧ locator path = Ok is_bmh ∧
    (is_bmh = true →
     ∃ contents manifest,
       getitem e "contents" = Ok contents ∧
       decode_manifest contents = Ok manifest ∧
       ∀ host, ∃ contents',
         encode_manifest contents (overwrite_hardware host manifest) = Ok contents').

Definition is_hosts_call (e : event) : bool :=
  match e with
  | EvGetInventoryHosts _ _ | EvGetTestListHosts _ => true
  | _ => false
  end.

Definition is_write (e : event) : bool :=
  match e with
  | EvOpenWrite _ | EvWrite _ _ => true
  | _ => false
  end.

(** The calls made between two worlds of one run. *)
Definition events_since (w w' : World) : list event :=
  drop (length (trace w)) (trace w').

(** What a reader of [path] can find there at some moment of a run that
    starts with the files [files] and makes the calls [log]. *)
Definition contents_seen (files : gmap string string) (log : list event) (path : string)
  : list (option string) :=
  map (λ k, foldl (flip fs_step) files (take k log) !! path) (seq 0 (S (length log))).

(** Atomic replacement of the document by a run from the world [w]: at
    every moment of the run a reader finds in the file either what it held
    before the run or the complete serialisation of the updated document. *)
Definition replaces_atomically `{Collaborators}
    (ignition_file cluster_id : string) (inventory_endpoint : option string)
    (w : World) : Prop :=
  let r := update_bmh_files ignition_file cluster_id inventory_endpoint w in
  ∀ seen,
    seen ∈ contents_seen (fs w) (events_since w r.2) ignition_file →
    seen = fs w !! ignition_file ∨
    ∃ data' w1,
      decode_and_update ignition_file cluster_id inventory_endpoint w = (Ok data', w1) ∧
      json_dump data' = ((json_dump data').1, None) ∧
      seen = Some (json_dump data').1.

(** ** Fixtures *)

Module Demo.
Definition hosts : list HostRecord := [MkHost "host-1" "52:54:00:aa:bb:cc"].

Definition inventory (endpoint cluster_id : string) : result (list HostRecord) :=
  if String.eqb endpoint "http://inventory:8090" then Ok hosts
  else Raise (Exn (OtherException "RetrievalError") "inventory unreachable").

Definition test_hosts (cluster_id : string) : result (list HostRecord) := Ok hosts.

(** The manifests of the scenario of the specification sit under
    /opt/openshift/. *)
Definition locator (path : json) : result bool :=
  match path with
  | JStr s => Ok (bool_decide (MiniJson.after "/opt/openshift/" s ≠ None))
  | _ => Raise (Exn (OtherException "AttributeError")
                    ("'" +:+ type_name path +:+ "' object has no attribute 'find'"))
  end.

(** Manifests embedded as plain objects. *)
#[local] Instance inline_manifest : ManifestCodec :=
  {| Manifest := json;
     decode_manifest := λ contents,
       match contents with
       | JObj _ => Ok contents
       | _ => Raise (Exn (OtherException "DecodeError") "not a manifest")
       end;
     overwrite_hardware := λ host manifest,
       setitem manifest "bootMACAddress" (JStr (host_mac host));
     encode_manifest := λ _ manifest, Ok manifest |}.

Definition collaborators : Collaborators :=
  spec_collaborators inventory test_hosts locator MiniJson.load MiniJson.dump.

(** The same, on a device with room for 40 characters. *)
Definition collaborators_small_device : Collaborators :=
  spec_collaborators inventory test_hosts locator MiniJson.load
    (MiniJson.dump_on_device 40).

Definition motd : json :=
  JObj [("path", JStr "/etc/motd"); ("contents", JStr "hi"); ("mode", JInt 420)].

Definition bmh (name : string) : json :=
  JObj [("path", JStr ("/opt/openshift/" +:+ name +:+ ".yaml"));
        ("contents", JObj [("name", JStr name);
                           ("bootMACAddress", JStr "00:00:00:00:00:00")]);
        ("mode", JInt 420)].

Definition document (files : list json) : json :=
  JObj [("ignition", JObj [("version", JStr "2.2.0")]);
        ("storage", JObj [("files", JArr files)])].

Definition ignition_file : string := "installer_dir/bootstrap.ign".

Definition installer_dir : list (string * list string * list string) :=
  [("installer_dir", ["auth"], ["bootstrap.ign"; "master.ign"; "metadata.json"]);
   ("installer_dir/auth", [], ["kubeconfig"; "kubeadmin-password"])].

(** An object store that refuses every upload for want of credentials,
    and one that accepts every upload. *)
Definition store_without_credentials : ObjectStore :=
  {| S3Client := unit;
     boto3_client := λ _ _ _ _, Ok ();
     upload_file := λ _ _ _ _ _,
       Some (Exn NoCredentialsError "Unable to locate credentials");
     os_walk := λ _, installer_dir |}.

Definition store : ObjectStore :=
  {| S3Client := unit;
     boto3_client := λ _ _ _ _, Ok ();
     upload_file := λ _ _ _ _ _, None;
     os_walk := λ _, installer_dir |}.

Definition world (files : list json) : World :=
  MkWorld {[ ignition_file := MiniJson.print (document files) ]} [].
End Demo.

(** ** The rest of the script: the install config and the installer *)

Definition INSTALL_CONFIG : string := "install-config.yaml".
Definition INSTALL_CONFIG_BACKUP : string := "backup-install-config.yaml".

(** [os.path.exists(path)].  The files of the model are regular files. *)
Definition os_path_exists (path : string) : M bool :=
  λ w, (Ok (bool_decide (is_Some (fs w !! path))), w).

(** [file_obj.write(text)] for what [main] read from the environment. *)
Definition write_config (path : string) (install_config : option string) : M unit :=
  match install_config with
  | Some text => emit (EvWrite path text)
  | None => raise (Exn TypeError "write() argument must be str, not NoneType")
  end.

(** The files of the model are regular files; directories and permissions
    are not among them.  [open_for_writing path files] is the exception that
    [open(path, 'w+')] raises, if it raises, when the regular files are
    [files]: [FileNotFoundError] when the directory of [path] is missing,
    [PermissionError] when it may not be written to, and so on. *)
Class Disk := {
  open_for_writing : string → gmap string string → option exn;
}.

Section InstallConfig.
Context `{Disk}.

(** [open(path, 'w+')]: when it does not raise, the mode ['w+'] creates the
    file or truncates it, as ['w'] does. *)
Definition open_w_plus (path : string) : M unit :=
  λ w, match open_for_writing path (fs w) with
       | Some ex => (Raise ex, w)
       | None => emit (EvOpenWrite path) w
       end.

(** Lines 111-119. *)
Definition prepare_install_config (config_dir : string) (install_config : option string)
  : M unit :=
  let install_config_path := os_path_join config_dir INSTALL_CONFIG in
  not_provided ←
    (if truthy install_config then mret false
     else found ← os_path_exists install_config_path; mret (negb found));
  if not_provided : bool then raise (Exn Exception "install config was not provided")
  else
    found ← os_path_exists install_config_path;
    if found : bool then mret ()
    else
      emit (EvLogInfo "writing install config to file");;
      open_w_plus (os_path_join config_dir INSTALL_CONFIG);;
      write_config (os_path_join config_dir INSTALL_CONFIG) install_config.
End InstallConfig.

(** *** Commands and [shutil]

    [subprocess.check_output] runs a program that is not part of the
    repository: given the files it finds, it leaves files behind and returns
    or raises ([CalledProcessError] on a non-zero exit status).  Its output is
    not used by the script. *)
Inductive command :=
  | Argv (args : list string)
  | ShellLine (line : string).

Class Subprocess := {
  check_output : command → gmap string string → gmap string string * option exn;
}.

(** The calls of the whole script, in the order they are made: those of the
    log of [World], the two of [shutil], and the commands. *)
Inductive call :=
  | Ev (e : event)
  | CallCopyfile (src dst : string)
  | CallMove (src dst : string)
  | CallCheckOutput (cmd : command).

Record Machine := MkMachine { m_files : gmap string string; m_calls : list call }.

Definition P (A : Type) : Type := Machine → result A * Machine.

#[global] Instance P_ret : MRet P := λ A a s, (Ok a, s).
#[global] Instance P_bind : MBind P := λ A B f m s,
  match m s with
  | (Ok a, s') => f a s'
  | (Raise e, s') => (Raise e, s')
  end.

Definition P_raise {A} (e : exn) : P A := λ s, (Raise e, s).

Definition record (c : call) : P unit :=
  λ s, (Ok (), MkMachine (m_files s) (m_calls s ++ [c])).

(** [try: body  except Exception as ex: handler ex], for the script. *)
Definition P_try_except_Exception {A} (body : P A) (handler : exn → P A) : P A :=
  λ s, match body s with
       | (Raise e, s') => if is_Exception e then handler e s' else (Raise e, s')
       | ok => ok
       end.

Definition events_of (calls : list call) : list event :=
  flat_map (λ c, match c with Ev e => [e] | _ => [] end) calls.

(** A function of the first part runs on the files of the machine; the calls
    it makes join the calls of the script. *)
Definition run_M {A} (m : M A) : P A :=
  λ s, let w := MkWorld (m_files s) (events_of (m_calls s)) in
       ((m w).1, MkMachine (fs (m w).2) (m_calls s ++ map Ev (events_since w (m w).2))).

Definition no_such_file (path : string) : exn :=
  Exn FileNotFoundError ("[Errno 2] No such file or directory: '" +:+ path +:+ "'").

Definition same_file (src dst : string) : exn :=
  Exn (OtherException "SameFileError")
      ("'" +:+ src +:+ "' and '" +:+ dst +:+ "' are the same file").

(** [shutil.copyfile(src, dst)] on regular files. *)
Definition copy_files (src dst : string) : P unit :=
  λ s, if decide (src = dst) then (Raise (same_file src dst), s)
       else match m_files s !! src with
            | Some text => (Ok (), MkMachine (<[dst := text]> (m_files s)) (m_calls s))
            | None => (Raise (no_such_file src), s)
            end.

Definition shutil_copyfile (src dst : string) : P unit :=
  record (CallCopyfile src dst);; copy_files src dst.

(** [shutil.move(src, dst)] on regular files: a rename, which replaces
    [dst]. *)
Definition move_files (src dst : string) : P unit :=
  λ s, match m_files s !! src with
       | Some text =>
           (Ok (), MkMachine (<[dst := text]> (delete src (m_files s))) (m_calls s))
       | None => (Raise (no_such_file src), s)
       end.

Definition shutil_move (src dst : string) : P unit :=
  record (CallMove src dst);; move_files src dst.

Definition failed_to_generate : string := "Failed to generate files, exception: ".

Section Installer.
Context `{Subprocess}.

Definition run_command (cmd : command) : P unit :=
  λ s, let out := check_output cmd (m_files s) in
       (match out.2 with None => Ok () | Some e => Raise e end,
        MkMachine out.1 (m_calls s)).

Definition subprocess_check_output (cmd : command) : P unit :=
  record (CallCheckOutput cmd);; run_command cmd.

(** Lines 89-95.  The generator has no [try] around its [yield]: when the
    body of the [with] raises, the exception passes through it and the lines
    after the [yield] are not run. *)
Definition backup_restore_install_config {A} (config_dir : string) (body : P A) : P A :=
  record (Ev (EvLogInfo ("Saving " +:+ INSTALL_CONFIG +:+
                         " cause it will be deleted by installer")));;
  shutil_copyfile (os_path_join config_dir INSTALL_CONFIG)
                  (os_path_join config_dir INSTALL_CONFIG_BACKUP);;
  a ← body;
  record (Ev (EvLogInfo ("Restoring " +:+ INSTALL_CONFIG)));;
  shutil_move (os_path_join config_dir INSTALL_CONFIG_BACKUP)
              (os_path_join config_dir INSTALL_CONFIG);;
  mret a.

(** The command of lines 102-103. *)
Definition installer_command (work_dir config_dir : string) : command :=
  ShellLine ("OPENSHIFT_INSTALL_INVOKER=" +:+
             String MiniJson.dquote ("assisted-installer" +:+
             String MiniJson.dquote (" " +:+ work_dir +:+
             "/openshift-install create ignition-configs --dir " +:+ config_dir))).

(** Lines 98-108. *)
Definition generate_installation_files (work_dir config_dir : string) : P unit :=
  backup_restore_install_config config_dir
    (let command := installer_command work_dir config_dir in
     P_try_except_Exception
       (record (Ev (EvLogInfo "Generating installation files"));;
        subprocess_check_output command)
       (λ ex, P_raise (Exn Exception (failed_to_generate +:+ exn_str ex)))).

(** Lines 122-125. *)
Definition create_config_dir (work_dir : string) : P string :=
  let config_dir := os_path_join work_dir "installer_dir" in
  subprocess_check_output (Argv ["mkdir"; "-p"; config_dir]);;
  mret config_dir.
End Installer.

(** *** [main] *)

(** What [parser.parse_args()] returns: the endpoint defaults to [None], the
    bucket to ['test']. *)
Record Args := MkArgs { args_s3_endpoint_url : option string; args_s3_bucket : string }.

(** [os.environ.get(key, fallback)]. *)
Definition environ_get (environ : gmap string string) (key : string)
    (fallback : option string) : option string :=
  match environ !! key with
  | Some value => Some value
  | None => fallback
  end.

(** The text of a value that may be [None], as ['{}'.format] gives it.
    [cluster_id] is [None] when CLUSTER_ID is not set; the script formats it
    (line 73) or hands it on to the providers.  The functions of the first
    part take it as text, so it reaches them as this text. *)
Definition py_str (value : option string) : string := default "None" value.

Section Main.
Context `{Collaborators} `{ObjectStore} `{Subprocess} `{Disk}.

(** Lines 128-165. *)
Definition main (args : Args) (environ : gmap string string) : P unit :=
  let work_dir := environ_get environ "WORK_DIR" None in
  let install_config := environ_get environ "INSTALLER_CONFIG" None in
  let cluster_id := environ_get environ "CLUSTER_ID" None in
  let inventory_endpoint := environ_get environ "INVENTORY_ENDPOINT" None in
  let s3_endpoint_url :=
    environ_get environ "S3_ENDPOINT_URL" (args_s3_endpoint_url args) in
  let bucket := environ_get environ "S3_BUCKET" (Some (args_s3_bucket args)) in
  let aws_access_key_id := environ_get environ "aws_access_key_id" (Some "accessKey1") in
  let aws_secret_access_key :=
    environ_get environ "aws_secret_access_key" (Some "verySecretKey1") in
  if negb (truthy work_dir) then P_raise (Exn Exception "working directory was not defined")
  else
    config_dir ← create_config_dir (py_str work_dir);
    run_M (prepare_install_config config_dir install_config);;
    generate_installation_files (py_str work_dir) config_dir;;
    run_M (update_bmh_files (config_dir +:+ "/bootstrap.ign") (py_str cluster_id)
             inventory_endpoint);;
    if truthy s3_endpoint_url then
      run_M (upload_to_s3 (py_str s3_endpoint_url) (py_str bucket)
               (py_str aws_access_key_id) (py_str aws_secret_access_key)
               config_dir (py_str cluster_id))
    else
      (* for debug purposes *)
      run_M (debug_print_upload_to_s3 config_dir).
End Main.

(** The commands and the uploads among the calls of the script. *)
Definition commands (calls : list call) : list command :=
  flat_map (λ c, match c with CallCheckOutput cmd => [cmd] | _ => [] end) calls.

Definition calls_since (s s' : Machine) : list call :=
  drop (length (m_calls s)) (m_calls s').

(** A part of the script that, from whatever state it starts, only adds to
    the calls and adds no upload. *)
Definition never_uploads {A} (m : P A) : Prop :=
  ∀ s, ∃ log, m_calls (m s).2 = (m_calls s ++ log)%list ∧ uploads (events_of log) = [].

(** A part of the script that only adds to the calls, and adds an upload
    only along with a write to [path]. *)
Definition uploads_need_write {A} (path : string) (m : P A) : Prop :=
  ∀ s, ∃ log,
    m_calls (m s).2 = (m_calls s ++ log)%list ∧
    (uploads (events_of log) ≠ [] → ∃ text, Ev (EvWrite path text) ∈ log).

(** The [update_bmh_cr_file] calls recorded in a log. *)
Definition updates (log : list event) : list json :=
  flat_map (λ e, match e with EvUpdateBmhCrFile file_data => [file_data] | _ => [] end) log.

(** ** Fixtures of the script *)

Module DemoScript.
(** An installer that consumes the install config and leaves the bootstrap
    ignition; [mkdir] changes no regular file. *)
Definition installer : Subprocess :=
  {| check_output := λ cmd files,
       match cmd with
       | Argv _ => (files, None)
       | ShellLine _ =>
           (<["work/installer_dir/bootstrap.ign" :=
                MiniJson.print (Demo.document [Demo.motd; Demo.bmh "master-0"])]>
              (delete "work/installer_dir/install-config.yaml" files), None)
       end |}.

(** An installer that fails after it has consumed the install config. *)
Definition failing_installer : Subprocess :=
  {| check_output := λ cmd files,
       match cmd with
       | Argv _ => (files, None)
       | ShellLine _ =>
           (delete "work/installer_dir/install-config.yaml" files,
            Some (Exn (OtherException "CalledProcessError")
                      "Command returned non-zero exit status 1"))
       end |}.

Definition environ : gmap string string :=
  {[ "WORK_DIR" := "work"; "INSTALLER_CONFIG" := "apiVersion: v1";
     "CLUSTER_ID" := "cluster-1" ]}.

Definition machine : Machine := MkMachine ∅ [].

(** A machine on which the install config is in place. *)
Definition prepared : Machine :=
  MkMachine {[ "work/installer_dir/install-config.yaml" := "apiVersion: v1" ]} [].

(** An object store that rejects one file, and one that cannot be reached. *)
Definition store_rejecting_metadata : ObjectStore :=
  {| S3Client := unit;
     boto3_client := λ _ _ _ _, Ok ();
     upload_file := λ _ _ local_file _ _,
       if String.eqb local_file "installer_dir/metadata.json"
       then Some (Exn (OtherException "S3UploadFailedError") "Failed to upload")
       else None;
     os_walk := λ _, Demo.installer_dir |}.

Definition store_out_of_reach : ObjectStore :=
  {| S3Client := unit;
     boto3_client := λ _ _ _ _,
       Raise (Exn (OtherException "ValueError") "Invalid endpoint: nowhere");
     upload_file := λ _ _ _ _ _, None;
     os_walk := λ _, Demo.installer_dir |}.

(** A disk on which every file can be opened for writing, and one on which
    the directory work/installer_dir is missing. *)
Definition disk : Disk := {| open_for_writing := λ _ _, None |}.

Definition disk_without_directory : Disk :=
  {| open_for_writing := λ path _,
       if bool_decide (MiniJson.after "work/installer_dir/" path ≠ None)
       then Some (no_such_file path) else None |}.

(** An inventory that knows another host than the test data does. *)
Definition inventory_hosts : list HostRecord := [MkHost "host-7" "52:54:00:11:22:33"].

Definition collaborators_with_inventory : Collaborators :=
  @spec_collaborators Demo.inline_manifest
    (λ endpoint cluster_id,
       if String.eqb endpoint "http://inventory:8090" then Ok inventory_hosts
       else Demo.inventory endpoint cluster_id)
    Demo.test_hosts Demo.locator MiniJson.load MiniJson.dump.
End DemoScript.

(** * Properties *)

(** ** Subscripts *)

Lemma assoc_set_same k v fields :
  assoc_get k fields = Some v → assoc_set k v fields = fields.
Proof.
  induction fields as [|[k' v'] rest IH]; simpl; [done|].
  destruct (String.eqb k k'); intros Hget.
  - by injection Hget as ->.
  - by rewrite IH.
Qed.

Lemma assoc_get_set k v fields : assoc_get k (assoc_set k v fields) = Some v.
Proof.
  induction fields as [|[k' v'] rest IH]; simpl.
  - by rewrite String.eqb_refl.
  - destruct (String.eqb k k') eqn:E; simpl; by rewrite E.
Qed.

Lemma assoc_get_set_ne k k' v fields :
  k ≠ k' → assoc_get k' (assoc_set k v fields) = assoc_get k' fields.
Proof.
  intros Hne. induction fields as [|[k0 v0] rest IH]; simpl.
  - destruct (String.eqb_spec k' k); congruence.
  - destruct (String.eqb_spec k k0) as [->|]; simpl.
    + destruct (String.eqb_spec k' k0); congruence.
    + by rewrite IH.
Qed.

Lemma setitem_same d k v : getitem d k = Ok v → setitem d k v = d.
Proof.
  destruct d; simpl; try done.
  destruct (assoc_get k fields) eqn:E; [|done].
  intros [= ->]. by rewrite assoc_set_same.
Qed.

Lemma getitem_setitem d k v v' : getitem d k = Ok v → getitem (setitem d k v') k = Ok v'.
Proof.
  destruct d; simpl; try done.
  intros _. by rewrite assoc_get_set.
Qed.

Lemma getitem_setitem_ne d k k' v :
  k ≠ k' → getitem (setitem d k v) k' = getitem d k'.
Proof.
  intros Hne. destruct d; simpl; try done.
  by rewrite assoc_get_set_ne.
Qed.

(** ** The monad *)

Lemma world_eta w : MkWorld (fs w) (trace w) = w.
Proof. by destruct w. Qed.

Lemma events_since_app w evs files : events_since w (MkWorld files (trace w ++ evs)) = evs.
Proof. unfold events_since; simpl. by rewrite drop_app_length. Qed.

Ltac run :=
  unfold mbind, M_bind, mret, M_ret, lift, raise, emit; simpl.

Section Orchestrator.
Context {C : Collaborators}.

(** *** The loop *)

(** The loop leaves the files alone and calls nothing but the mutator. *)
Lemma for_file_data_world items hosts w :
  ∃ updated,
    (for_file_data items hosts w).2
    = MkWorld (fs w) (trace w ++ map EvUpdateBmhCrFile updated).
Proof.
  revert hosts w. induction items as [|e items IH]; intros hosts w.
  - exists []. simpl. run. by rewrite app_nil_r, world_eta.
  - simpl. run.
    destruct (getitem e "path") as [path|ex]; simpl;
      [|exists []; simpl; by rewrite app_nil_r, world_eta].
    destruct (is_bmh_cr_file path) as [[|]|ex]; simpl.
    + destruct (update_bmh_cr_file e hosts) as [[e' hosts']|ex]; simpl.
      * destruct (IH hosts' (MkWorld (fs w) (trace w ++ [EvUpdateBmhCrFile e])))
          as [updated Hw].
        exists (e :: updated).
        destruct (for_file_data items hosts' _) as [[[items' hosts'']|ex] w'];
          simpl in *; subst w'; simpl; by rewrite <- app_assoc.
      * exists [e]. done.
    + destruct (IH hosts w) as [updated Hw]. exists updated.
      destruct (for_file_data items hosts w) as [[[items' hosts'']|ex] w'];
        simpl in *; by subst w'.
    + exists []. simpl. by rewrite app_nil_r, world_eta.
Qed.

(** Its result does not depend on the world. *)
Lemma for_file_data_result items hosts w1 w2 :
  (for_file_data items hosts w1).1 = (for_file_data items hosts w2).1.
Proof.
  revert hosts w1 w2. induction items as [|e items IH]; intros hosts w1 w2; [done|].
  simpl. run.
  destruct (getitem e "path") as [path|ex]; simpl; [|done].
  destruct (is_bmh_cr_file path) as [[|]|ex]; simpl; [| |done].
  - destruct (update_bmh_cr_file e hosts) as [[e' hosts']|ex]; simpl; [|done].
    specialize (IH hosts' (MkWorld (fs w1) (trace w1 ++ [EvUpdateBmhCrFile e]))
                  (MkWorld (fs w2) (trace w2 ++ [EvUpdateBmhCrFile e]))).
    do 2 destruct (for_file_data items hosts' _) as [[[??]|?] ?]; simpl in *; congruence.
  - specialize (IH hosts w1 w2).
    do 2 destruct (for_file_data items hosts _) as [[[??]|?] ?]; simpl in *; congruence.
Qed.

(** When it returns, every entry went through one turn. *)
Lemma for_file_data_ok items hosts w items' hosts' w' :
  for_file_data items hosts w = (Ok (items', hosts'), w') →
  Forall2 entry_step items items'.
Proof.
  revert hosts w items'. induction items as [|e items IH]; intros hosts w items'.
  - simpl. run. intros [= <- _ _]. constructor.
  - simpl. run.
    destruct (getitem e "path") as [path|ex] eqn:Hpath; simpl; [|done].
    destruct (is_bmh_cr_file path) as [[|]|ex] eqn:Hbmh; simpl; [| |done].
    + destruct (update_bmh_cr_file e hosts) as [[e' hosts1]|ex] eqn:Hupd; simpl; [|done].
      destruct (for_file_data items hosts1 _) as [[[items1 hosts2]|ex] w1] eqn:Hrest;
        simpl; [|done].
      intros [= <- <- <-]. constructor; [|by eapply IH].
      exists path. split; [done|]. right. eauto.
    + destruct (for_file_data items hosts w) as [[[items1 hosts2]|ex] w1] eqn:Hrest;
        simpl; [|done].
      intros [= <- <- <-]. constructor; [|by eapply IH].
      exists path. split; [done|]. by left.
Qed.

(** *** Lines 43-55 *)

Lemma resolve_hosts_list_run cluster_id inventory_endpoint w :
  resolve_hosts_list cluster_id inventory_endpoint w
  = (hosts_result cluster_id inventory_endpoint,
     MkWorld (fs w) (trace w ++ hosts_events cluster_id inventory_endpoint)).
Proof.
  unfold resolve_hosts_list, hosts_result, hosts_events.
  destruct inventory_endpoint as [[|c s]|]; simpl; run; by rewrite <- ?app_assoc.
Qed.

(** The world after lines 43-55: the files are as they were; the host list
    was asked for once, first; nothing was opened for writing. *)
Lemma decode_and_update_world ignition_file cluster_id inventory_endpoint w :
  ∃ rest,
    (decode_and_update ignition_file cluster_id inventory_endpoint w).2
    = MkWorld (fs w) (trace w ++ hosts_events cluster_id inventory_endpoint ++ rest) ∧
    Forall (λ e, is_hosts_call e = false ∧ is_write e = false) rest.
Proof.
  unfold decode_and_update. unfold mbind at 1, M_bind at 1.
  rewrite resolve_hosts_list_run.
  destruct (hosts_result cluster_id inventory_endpoint) as [hosts|ex]; simpl.
  2: { exists []. by rewrite app_nil_r. }
  unfold open_read, read_text. run.
  destruct (fs w !! ignition_file) as [text|]; simpl.
  2: { exists [EvOpenRead ignition_file]. rewrite <- app_assoc.
       split; [done|]. by repeat constructor. }
  destruct (json_load text) as [data|ex]; simpl.
  2: { exists [EvOpenRead ignition_file]. rewrite <- app_assoc.
       split; [done|]. by repeat constructor. }
  destruct (getitem data "storage") as [storage|ex]; simpl.
  2: { exists [EvOpenRead ignition_file]. rewrite <- app_assoc.
       split; [done|]. by repeat constructor. }
  destruct (getitem storage "files") as [storage_files|ex]; simpl.
  2: { exists [EvOpenRead ignition_file]. rewrite <- app_assoc.
       split; [done|]. by repeat constructor. }
  destruct (py_iter storage_files) as [items|ex]; simpl.
  2: { exists [EvOpenRead ignition_file]. rewrite <- app_assoc.
       split; [done|]. by repeat constructor. }
  match goal with |- context [for_file_data items hosts ?w0] =>
    destruct (for_file_data_world items hosts w0) as [updated Hw];
    destruct (for_file_data items hosts w0) as [[[items' hosts']|ex] w'] end;
    simpl in *; subst w'; simpl.
  all: exists (EvOpenRead ignition_file :: map EvUpdateBmhCrFile updated).
  all: rewrite <- !app_assoc; split; [done|].
  all: constructor; [done|]; apply Forall_forall; intros e He.
  all: apply list_elem_of_fmap in He as (? & -> & _); done.
Qed.

(** Lines 43-55 as a function of the host list obtained and of the text
    found in the file. *)
Lemma decode_and_update_result ignition_file cluster_id inventory_endpoint w w0 :
  (decode_and_update ignition_file cluster_id inventory_endpoint w).1
  = (hosts_list ← hosts_result cluster_id inventory_endpoint;
     text ← match fs w !! ignition_file with
            | Some text => Ok text
            | None => Raise (Exn FileNotFoundError
                ("[Errno 2] No such file or directory: '" +:+ ignition_file +:+ "'"))
            end;
     data ← json_load text;
     storage ← getitem data "storage";
     storage_files ← getitem storage "files";
     items ← py_iter storage_files;
     '(items', _) ← (for_file_data items hosts_list w0).1;
     Ok (setitem data "storage"
           (setitem storage "files" (with_items storage_files items')))).
Proof.
  unfold decode_and_update. unfold mbind at 1, M_bind at 1.
  rewrite resolve_hosts_list_run.
  destruct (hosts_result cluster_id inventory_endpoint) as [hosts|ex]; simpl; [|done].
  unfold open_read, read_text. run. unfold mbind, result_bind.
  destruct (fs w !! ignition_file) as [text|]; simpl; [|done].
  destruct (json_load text) as [data|ex]; simpl; [|done].
  destruct (getitem data "storage") as [storage|ex]; simpl; [|done].
  destruct (getitem storage "files") as [storage_files|ex]; simpl; [|done].
  destruct (py_iter storage_files) as [items|ex]; simpl; [|done].
  match goal with |- context [for_file_data items hosts ?w1] =>
    rewrite (for_file_data_result items hosts w0 w1);
    destruct (for_file_data items hosts w1) as [[[items' hosts']|ex] w'] end; done.
Qed.

(** When lines 43-55 return, every step before them returned. *)
Lemma decode_and_update_ok ignition_file cluster_id inventory_endpoint w data' w1 :
  decode_and_update ignition_file cluster_id inventory_endpoint w = (Ok data', w1) →
  ∃ hosts text data,
    hosts_result cluster_id inventory_endpoint = Ok hosts ∧
    fs w !! ignition_file = Some text ∧
    json_load text = Ok data ∧
    updated_document data data'.
Proof.
  intros Hrun.
  pose proof (decode_and_update_result ignition_file cluster_id inventory_endpoint w w)
    as Hres.
  rewrite Hrun in Hres. simpl in Hres. unfold mbind, result_bind in Hres.
  destruct (hosts_result cluster_id inventory_endpoint) as [hosts|ex]; [|done].
  destruct (fs w !! ignition_file) as [text|]; [|done].
  destruct (json_load text) as [data|ex] eqn:Hload; [|done].
  destruct (getitem data "storage") as [storage|ex] eqn:Hst; [|done].
  destruct (getitem storage "files") as [storage_files|ex] eqn:Hfiles; [|done].
  destruct (py_iter storage_files) as [items|ex] eqn:Hiter; [|done].
  destruct (for_file_data items hosts w) as [[[items' hosts']|ex] w'] eqn:Hloop;
    simpl in Hres; [|done].
  injection Hres as ->.
  exists hosts, text, data. repeat split; try done.
  exists storage, storage_files, items, items'. repeat split; try done.
  by eapply for_file_data_ok.
Qed.

(** *** The whole function *)

Lemma update_bmh_files_failed ignition_file cluster_id inventory_endpoint w ex w1 :
  decode_and_update ignition_file cluster_id inventory_endpoint w = (Raise ex, w1) →
  update_bmh_files ignition_file cluster_id inventory_endpoint w
  = (Raise (surfaced ex), w1).
Proof.
  intros Hrun. unfold update_bmh_files, try_except_Exception, update_bmh_files_body.
  unfold mbind, M_bind. rewrite Hrun. unfold surfaced, wrapped, raise.
  by destruct (is_Exception ex).
Qed.

Lemma update_bmh_files_persist ignition_file cluster_id inventory_endpoint w data' w1 :
  decode_and_update ignition_file cluster_id inventory_endpoint w = (Ok data', w1) →
  update_bmh_files ignition_file cluster_id inventory_endpoint w
  = (match (json_dump data').2 with
     | None => Ok ()
     | Some ex => Raise (surfaced ex)
     end,
     MkWorld (<[ignition_file := (json_dump data').1]> (fs w1))
             (trace w1 ++ [EvOpenWrite ignition_file;
                           EvWrite ignition_file (json_dump data').1])).
Proof.
  intros Hrun. unfold update_bmh_files, try_except_Exception, update_bmh_files_body.
  unfold mbind at 1, M_bind at 1. rewrite Hrun. unfold persist. run.
  rewrite lookup_insert_eq, insert_insert_eq. simpl. rewrite <- app_assoc. simpl.
  destruct (json_dump data').2 as [ex|]; [|done].
  unfold surfaced, wrapped. by destruct (is_Exception ex).
Qed.

Lemma fails_before_persist_raises ignition_file cluster_id inventory_endpoint w ex :
  fails_before_persist ignition_file cluster_id inventory_endpoint w ex ↔
  (decode_and_update ignition_file cluster_id inventory_endpoint w).1 = Raise ex.
Proof.
  split.
  - intros Hfail.
    destruct Hfail as [Hh|hosts Hh Hopen ->|hosts text Hh Hopen Hload
                       |hosts text data Hh Hopen Hload Hshape
                       |hosts text data items w0 Hh Hopen Hload Hshape Hloop].
    all: rewrite (decode_and_update_result _ _ _ w w); rewrite Hh; simpl; try done.
    all: rewrite Hopen; simpl; try done.
    all: rewrite Hload; simpl; try done.
    + unfold mbind, result_bind in *.
      destruct (getitem data "storage") as [storage|]; simpl in *; [|congruence].
      destruct (getitem storage "files") as [storage_files|]; simpl in *; [|congruence].
      destruct (py_iter storage_files); simpl in *; congruence.
    + unfold mbind, result_bind in *.
      destruct (getitem data "storage") as [storage|]; simpl in *; [|congruence].
      destruct (getitem storage "files") as [storage_files|]; simpl in *; [|congruence].
      destruct (py_iter storage_files) as [items0|]; simpl in *; [|congruence].
      injection Hshape as ->.
      rewrite (for_file_data_result items hosts w w0), Hloop. done.
  - rewrite (decode_and_update_result _ _ _ w w). unfold mbind, result_bind.
    destruct (hosts_result cluster_id inventory_endpoint) as [hosts|ex0] eqn:Hh.
    2: { intros [= ->]. by apply fails_hosts. }
    destruct (fs w !! ignition_file) as [text|] eqn:Hopen.
    2: { intros [= <-]. by eapply fails_open. }
    destruct (json_load text) as [data|ex0] eqn:Hload.
    2: { intros [= ->]. by eapply fails_load. }
    destruct (getitem data "storage") as [storage|ex0] eqn:Hst.
    2: { intros [= ->]. eapply fails_shape; try done.
         unfold mbind, result_bind. by rewrite Hst. }
    destruct (getitem storage "files") as [storage_files|ex0] eqn:Hfiles.
    2: { intros [= ->]. eapply fails_shape; try done.
         unfold mbind, result_bind. by rewrite Hst, Hfiles. }
    destruct (py_iter storage_files) as [items|ex0] eqn:Hiter.
    2: { intros [= ->]. eapply fails_shape; try done.
         unfold mbind, result_bind. by rewrite Hst, Hfiles, Hiter. }
    destruct (for_file_data items hosts w) as [[[items' hosts']|ex0] w'] eqn:Hloop;
      simpl; [done|].
    intros [= ->]. eapply (fails_loop _ _ _ _ _ hosts text data items w); try done.
    + unfold mbind, result_bind. by rewrite Hst, Hfiles, Hiter.
    + by rewrite Hloop.
Qed.

(** A failure in lines 43-55 leaves the files alone. *)
Lemma update_bmh_files_failed_world ignition_file cluster_id inventory_endpoint w ex :
  (decode_and_update ignition_file cluster_id inventory_endpoint w).1 = Raise ex →
  let r := update_bmh_files ignition_file cluster_id inventory_endpoint w in
  r.1 = Raise (surfaced ex) ∧ fs r.2 = fs w ∧
  Forall (λ e, is_write e = false) (events_since w r.2).
Proof.
  destruct (decode_and_update ignition_file cluster_id inventory_endpoint w)
    as [res w1] eqn:Hrun.
  simpl. intros ->. rewrite (update_bmh_files_failed _ _ _ _ _ _ Hrun).
  destruct (decode_and_update_world ignition_file cluster_id inventory_endpoint w)
    as (rest & Hw & Hrest).
  rewrite Hrun in Hw. simpl in *. subst w1. simpl.
  split; [done|]. split; [done|].
  rewrite events_since_app. apply Forall_app. split.
  - destruct inventory_endpoint as [[|??]|]; by repeat constructor.
  - eapply Forall_impl; [exact Hrest|]. by intros ? [_ ?].
Qed.

(** C1.  Whenever a step before the document is persisted fails -- the
    host list cannot be obtained, the file cannot be opened or decoded, an
    entry cannot be examined, or the mutation of a manifest raises --
    [update_bmh_files] raises, the run never opens a file for writing nor
    writes to one, and the files on disk are what they were.  And a run that
    does open the file for writing has decoded the document and taken every
    entry through the loop, so every qualifying manifest was updated. *)
Theorem update_bmh_files_failure_writes_nothing
    ignition_file cluster_id inventory_endpoint w :
  let r := update_bmh_files ignition_file cluster_id inventory_endpoint w in
  (∀ ex, fails_before_persist ignition_file cluster_id inventory_endpoint w ex →
     r.1 = Raise (surfaced ex) ∧
     fs r.2 = fs w ∧
     Forall (λ e, is_write e = false) (events_since w r.2)) ∧
  ((∃ e, e ∈ events_since w r.2 ∧ is_write e = true) →
     ∃ hosts text data data',
       hosts_result cluster_id inventory_endpoint = Ok hosts ∧
       fs w !! ignition_file = Some text ∧
       json_load text = Ok data ∧
       updated_document data data' ∧
       fs r.2 !! ignition_file = Some (json_dump data').1).
Proof.
  intros r. split.
  - intros ex Hfail. apply fails_before_persist_raises in Hfail.
    by apply update_bmh_files_failed_world.
  - intros (e & He & Hwrite).
    destruct (decode_and_update ignition_file cluster_id inventory_endpoint w)
      as [[data'|ex] w1] eqn:Hrun.
    + destruct (decode_and_update_ok _ _ _ _ _ _ Hrun)
        as (hosts & text & data & Hh & Hopen & Hload & Hupd).
      exists hosts, text, data, data'. repeat split; try done.
      subst r. rewrite (update_bmh_files_persist _ _ _ _ _ _ Hrun). simpl.
      apply lookup_insert_eq.
    + destruct (update_bmh_files_failed_world
                  ignition_file cluster_id inventory_endpoint w ex)
        as (_ & _ & Hnone); [by rewrite Hrun|].
      rewrite Forall_forall in Hnone. specialize (Hnone e He). congruence.
Qed.

(** *** The document after the loop *)

Lemma Forall2_entry_step_chars s items' :
  Forall2 entry_step (chars s) items' → chars s = [] ∧ items' = [].
Proof.
  destruct s; simpl; inversion 1 as [|???? (path & Hpath & _)]; [done|].
  discriminate Hpath.
Qed.

(** Read back from [data], the list holds the entries as the loop left
    them. *)
Lemma py_iter_with_items storage_files items items' :
  py_iter storage_files = Ok items →
  Forall2 entry_step items items' →
  py_iter (with_items storage_files items') = Ok items'.
Proof.
  destruct storage_files; simpl; try done.
  - intros [= <-] Hsteps.
    destruct (Forall2_entry_step_chars _ _ Hsteps) as [-> ->]. done.
  - intros [= <-] Hsteps. destruct fields as [|[k v] fields]; simpl in *.
    + by inversion Hsteps.
    + inversion Hsteps as [|???? (path & Hpath & _)]. discriminate Hpath.
Qed.

Lemma updated_document_files data data' :
  updated_document data data' →
  ∃ items items',
    (getitem data "storage" ≫= λ storage,
       getitem storage "files" ≫= py_iter) = Ok items ∧
    (getitem data' "storage" ≫= λ storage,
       getitem storage "files" ≫= py_iter) = Ok items' ∧
    Forall2 entry_step items items'.
Proof.
  intros (storage & storage_files & items & items' & Hst & Hfiles & Hiter & Hsteps & ->).
  exists items, items'. unfold mbind, result_bind.
  rewrite Hst, Hfiles, Hiter.
  rewrite (getitem_setitem _ _ _ _ Hst), (getitem_setitem _ _ _ _ Hfiles).
  by rewrite (py_iter_with_items _ _ _ Hiter Hsteps).
Qed.

(** Outside storage.files the document is what was decoded. *)
Lemma updated_document_elsewhere data data' k :
  updated_document data data' → k ≠ "storage" → getitem data' k = getitem data k.
Proof.
  intros (storage & storage_files & items & items' & _ & _ & _ & _ & ->) Hk.
  by apply getitem_setitem_ne.
Qed.

Lemma entry_step_not_qualifying e e' : entry_step e e' → qualifies e = false → e' = e.
Proof.
  intros (path & Hpath & [[_ ->]|[Hbmh _]]); [done|].
  unfold qualifies. rewrite Hpath. simpl. unfold mbind, result_bind.
  by rewrite Hbmh.
Qed.

Lemma entry_step_qualifying e e' :
  entry_step e e' → qualifies e = true →
  ∃ hosts hosts', update_bmh_cr_file e hosts = Ok (e', hosts').
Proof.
  intros (path & Hpath & [[Hbmh _]|[_ Hupd]]); [|done].
  unfold qualifies. rewrite Hpath. simpl. unfold mbind, result_bind.
  by rewrite Hbmh.
Qed.

(** A run that returns has persisted the document of lines 43-55. *)
Lemma update_bmh_files_returns ignition_file cluster_id inventory_endpoint w :
  (update_bmh_files ignition_file cluster_id inventory_endpoint w).1 = Ok () →
  ∃ hosts text data data',
    hosts_result cluster_id inventory_endpoint = Ok hosts ∧
    fs w !! ignition_file = Some text ∧
    json_load text = Ok data ∧
    updated_document data data' ∧
    json_dump data' = ((json_dump data').1, None) ∧
    fs (update_bmh_files ignition_file cluster_id inventory_endpoint w).2
    = <[ignition_file := (json_dump data').1]> (fs w).
Proof.
  destruct (decode_and_update ignition_file cluster_id inventory_endpoint w)
    as [[data'|ex] w1] eqn:Hrun.
  - rewrite (update_bmh_files_persist _ _ _ _ _ _ Hrun). simpl.
    destruct (decode_and_update_ok _ _ _ _ _ _ Hrun)
      as (hosts & text & data & Hh & Hopen & Hload & Hupd).
    destruct (decode_and_update_world ignition_file cluster_id inventory_endpoint w)
      as (rest & Hw & _).
    rewrite Hrun in Hw. simpl in Hw. subst w1. simpl.
    destruct (json_dump data') as [out [ex|]] eqn:Hdump; simpl; [done|].
    intros _. exists hosts, text, data, data'. rewrite Hdump. done.
  - by rewrite (update_bmh_files_failed _ _ _ _ _ _ Hrun).
Qed.

(** C2.  After a run of [update_bmh_files] that returns, the file holds the
    serialisation of a document [data'] that is the decoded input except
    under storage.files; there it lists as many entries as the input, at
    the same positions; an entry whose path does not satisfy
    [is_bmh_cr_file] is identical to the input entry, in every field; and,
    the mutator being one that changes nothing but the contents of the
    entry it is given, an entry whose path satisfies the predicate is the
    input entry with a new value under its contents key. *)
Theorem update_bmh_files_frame
    ignition_file cluster_id inventory_endpoint w text data items :
  fs w !! ignition_file = Some text →
  json_load text = Ok data →
  (getitem data "storage" ≫= λ storage, getitem storage "files" ≫= py_iter) = Ok items →
  (update_bmh_files ignition_file cluster_id inventory_endpoint w).1 = Ok () →
  ∃ data' items',
    fs (update_bmh_files ignition_file cluster_id inventory_endpoint w).2
      !! ignition_file = Some (json_dump data').1 ∧
    (json_dump data').2 = None ∧
    (∀ k, k ≠ "storage" → getitem data' k = getitem data k) ∧
    (getitem data' "storage" ≫= λ storage, getitem storage "files" ≫= py_iter)
      = Ok items' ∧
    length items' = length items ∧
    ∀ i e e', items !! i = Some e → items' !! i = Some e' →
      (qualifies e = false → e' = e) ∧
      (qualifies e = true → changes_only_contents →
         ∃ contents', e' = setitem e "contents" contents').
Proof.
  intros Hopen Hload Hitems Hok.
  destruct (update_bmh_files_returns _ _ _ _ Hok)
    as (hosts & text0 & data0 & data' & _ & Hopen0 & Hload0 & Hupd & Hdump & Hfs).
  rewrite Hopen in Hopen0. injection Hopen0 as <-.
  rewrite Hload in Hload0. injection Hload0 as <-.
  destruct (updated_document_files _ _ Hupd) as (items0 & items' & Hi0 & Hi' & Hsteps).
  rewrite Hitems in Hi0. injection Hi0 as <-.
  exists data', items'. rewrite Hfs, lookup_insert_eq, Hdump. simpl.
  repeat split; try done.
  - intros k Hk. by eapply updated_document_elsewhere.
  - symmetry. by eapply Forall2_length.
  - intros Hq. eapply entry_step_not_qualifying; [|done].
    by eapply Forall2_lookup_lr.
  - intros Hq Hcontract.
    assert (entry_step e e') as Hstep by by eapply Forall2_lookup_lr.
    destruct (entry_step_qualifying _ _ Hstep Hq) as (h & h' & Hupdate).
    by eapply Hcontract.
Qed.

(** With no qualifying entry the loop hands back the entries it was
    given. *)
Lemma Forall2_entry_step_none items items' :
  Forall2 entry_step items items' →
  Forall (λ e, qualifies e = false) items →
  items' = items.
Proof.
  induction 1 as [|e e' items items' Hstep _ IH]; [done|].
  intros [Hq Hrest]%Forall_cons. f_equal; [|by apply IH].
  by apply entry_step_not_qualifying.
Qed.

Lemma updated_document_none data data' items :
  (getitem data "storage" ≫= λ storage, getitem storage "files" ≫= py_iter) = Ok items →
  Forall (λ e, qualifies e = false) items →
  updated_document data data' →
  data' = data.
Proof.
  intros Hitems Hnone
    (storage & storage_files & items0 & items' & Hst & Hfiles & Hiter & Hsteps & ->).
  unfold mbind, result_bind in Hitems. rewrite Hst, Hfiles, Hiter in Hitems.
  injection Hitems as ->.
  rewrite (Forall2_entry_step_none _ _ Hsteps Hnone).
  assert (with_items storage_files items = storage_files) as ->.
  { destruct storage_files; simpl in *; congruence. }
  by rewrite (setitem_same _ _ _ Hfiles), (setitem_same _ _ _ Hst).
Qed.

(** C5.  On a document none of whose entries satisfies [is_bmh_cr_file], a
    run of [update_bmh_files] that returns writes the serialisation of
    exactly the tree it decoded: the file then holds [json_dump data] for
    the [data] that [json_load] made of the input.  So the output is the
    input wherever [json_dump] gives back the text that was loaded, and
    wherever [json_load] inverts [json_dump] on this document the output
    decodes to the very tree the input decoded to: the same entries, in
    the same order, with all their fields. *)
Theorem update_bmh_files_round_trip
    ignition_file cluster_id inventory_endpoint w text data items :
  fs w !! ignition_file = Some text →
  json_load text = Ok data →
  (getitem data "storage" ≫= λ storage, getitem storage "files" ≫= py_iter) = Ok items →
  Forall (λ e, qualifies e = false) items →
  (update_bmh_files ignition_file cluster_id inventory_endpoint w).1 = Ok () →
  ∃ out,
    fs (update_bmh_files ignition_file cluster_id inventory_endpoint w).2
      !! ignition_file = Some out ∧
    json_dump data = (out, None) ∧
    ((json_dump data).1 = text → out = text) ∧
    (json_load (json_dump data).1 = Ok data → json_load out = json_load text).
Proof.
  intros Hopen Hload Hitems Hnone Hok.
  destruct (update_bmh_files_returns _ _ _ _ Hok)
    as (hosts & text0 & data0 & data' & _ & Hopen0 & Hload0 & Hupd & Hdump & Hfs).
  rewrite Hopen in Hopen0. injection Hopen0 as <-.
  rewrite Hload in Hload0. injection Hload0 as <-.
  rewrite (updated_document_none _ _ _ Hitems Hnone Hupd) in *.
  exists (json_dump data).1. rewrite Hfs, lookup_insert_eq.
  repeat split; try done. congruence.
Qed.

(** C6.  Two runs of [update_bmh_files] that find the same text in the
    document file and obtain the same host list -- whatever else the two
    worlds hold, and whichever provider answered -- end alike: both return
    or both raise the same exception, and both leave the same text in the
    document file. *)
Theorem update_bmh_files_deterministic
    ignition_file cluster_id1 inventory_endpoint1 w1
    cluster_id2 inventory_endpoint2 w2 :
  fs w1 !! ignition_file = fs w2 !! ignition_file →
  hosts_result cluster_id1 inventory_endpoint1
    = hosts_result cluster_id2 inventory_endpoint2 →
  let r1 := update_bmh_files ignition_file cluster_id1 inventory_endpoint1 w1 in
  let r2 := update_bmh_files ignition_file cluster_id2 inventory_endpoint2 w2 in
  r1.1 = r2.1 ∧ fs r1.2 !! ignition_file = fs r2.2 !! ignition_file.
Proof.
  intros Hfile Hhosts r1 r2.
  pose proof (decode_and_update_result ignition_file cluster_id1 inventory_endpoint1
                w1 w1) as H1.
  pose proof (decode_and_update_result ignition_file cluster_id2 inventory_endpoint2
                w2 w1) as H2.
  rewrite <- Hfile, <- Hhosts, <- H1 in H2. clear H1.
  destruct (decode_and_update_world ignition_file cluster_id1 inventory_endpoint1 w1)
    as (rest1 & Hw1 & _).
  destruct (decode_and_update_world ignition_file cluster_id2 inventory_endpoint2 w2)
    as (rest2 & Hw2 & _).
  subst r1 r2.
  destruct (decode_and_update ignition_file cluster_id1 inventory_endpoint1 w1)
    as [res1 w1'] eqn:Hrun1.
  destruct (decode_and_update ignition_file cluster_id2 inventory_endpoint2 w2)
    as [res2 w2'] eqn:Hrun2.
  simpl in *. subst res2 w1' w2'.
  destruct res1 as [data'|ex].
  - rewrite (update_bmh_files_persist _ _ _ _ _ _ Hrun1),
      (update_bmh_files_persist _ _ _ _ _ _ Hrun2). simpl.
    by rewrite !lookup_insert_eq.
  - rewrite (update_bmh_files_failed _ _ _ _ _ _ Hrun1),
      (update_bmh_files_failed _ _ _ _ _ _ Hrun2). done.
Qed.

(** The calls of a whole run: those that obtain the host list come
    first, and none of the later ones asks for it again. *)
Lemma update_bmh_files_events ignition_file cluster_id inventory_endpoint w :
  ∃ rest,
    events_since w (update_bmh_files ignition_file cluster_id inventory_endpoint w).2
    = (hosts_events cluster_id inventory_endpoint ++ rest)%list ∧
    Forall (λ e, is_hosts_call e = false) rest.
Proof.
  destruct (decode_and_update_world ignition_file cluster_id inventory_endpoint w)
    as (rest & Hw & Hrest).
  assert (Forall (λ e, is_hosts_call e = false) rest) as Hrest'.
  { eapply Forall_impl; [exact Hrest|]. by intros ? [? _]. }
  destruct (decode_and_update ignition_file cluster_id inventory_endpoint w)
    as [[data'|ex] w1] eqn:Hrun; simpl in Hw; subst w1.
  - rewrite (update_bmh_files_persist _ _ _ _ _ _ Hrun). simpl.
    exists (rest ++ [EvOpenWrite ignition_file;
                     EvWrite ignition_file (json_dump data').1])%list.
    rewrite <- !app_assoc, events_since_app. split; [done|].
    apply Forall_app. split; [done|]. by repeat constructor.
  - rewrite (update_bmh_files_failed _ _ _ _ _ _ Hrun). simpl.
    exists rest. by rewrite events_since_app.
Qed.

(** The run as a function of what the provider returns: when it raises,
    the run ends there with that failure; when it returns a host list, the
    rest of the run is lines 49-58 on that list. *)
Lemma update_bmh_files_with_hosts_list ignition_file cluster_id inventory_endpoint w :
  update_bmh_files ignition_file cluster_id inventory_endpoint w
  = let w1 := MkWorld (fs w) (trace w ++ hosts_events cluster_id inventory_endpoint) in
    match hosts_result cluster_id inventory_endpoint with
    | Ok hosts_list =>
        try_except_Exception (update_with_hosts_list ignition_file hosts_list)
          (λ ex, raise (wrapped ex)) w1
    | Raise ex => (Raise (surfaced ex), w1)
    end.
Proof.
  cbv zeta.
  unfold update_bmh_files, update_bmh_files_body, decode_and_update,
    update_with_hosts_list, try_except_Exception.
  unfold mbind at 1 2, M_bind at 1 2.
  rewrite resolve_hosts_list_run.
  destruct (hosts_result cluster_id inventory_endpoint) as [hosts_list|ex].
  2: { unfold surfaced, wrapped, raise. by destruct (is_Exception ex). }
  unfold open_read, read_text. run.
  destruct (fs w !! ignition_file) as [text|]; simpl; [|done].
  destruct (json_load text) as [data|ex]; simpl; [|done].
  destruct (getitem data "storage") as [storage|ex]; simpl; [|done].
  destruct (getitem storage "files") as [storage_files|ex]; simpl; [|done].
  destruct (py_iter storage_files) as [items|ex]; simpl; [|done].
  by destruct (for_file_data items hosts_list _) as [[[items' hosts']|ex] w'].
Qed.

(** C7.  In every run of [update_bmh_files] the host list is obtained
    exactly once, and first, from the provider that the endpoint selects,
    and what that provider returns is the host list of the run.  With a
    non-empty inventory endpoint the run begins with the call of
    [get_inventory_hosts] on that endpoint and the cluster id; with no
    endpoint, or an empty one, it begins with the call of
    [get_test_list_hosts] on the cluster id (after the log line that
    announces it).  No later call -- reading the file, mutating a manifest,
    writing -- asks for hosts again.  When the provider raises, the run ends
    there with that failure, before the file is opened; when it returns a
    host list, the rest of the run is lines 49-58 on that very list: it is
    the list that the loop hands to the mutator. *)
Theorem update_bmh_files_resolves_hosts_once
    ignition_file cluster_id inventory_endpoint w :
  let r := update_bmh_files ignition_file cluster_id inventory_endpoint w in
  let log := events_since w r.2 in
  (∀ endpoint, inventory_endpoint = Some endpoint → endpoint ≠ "" →
     (∃ rest, log = EvGetInventoryHosts endpoint cluster_id :: rest ∧
              Forall (λ e, is_hosts_call e = false) rest) ∧
     let w1 := MkWorld (fs w) (trace w ++ [EvGetInventoryHosts endpoint cluster_id]) in
     match get_inventory_hosts endpoint cluster_id with
     | Ok hosts_list =>
         r = try_except_Exception (update_with_hosts_list ignition_file hosts_list)
               (λ ex, raise (wrapped ex)) w1
     | Raise ex => r = (Raise (surfaced ex), w1)
     end) ∧
  (inventory_endpoint = None ∨ inventory_endpoint = Some "" →
     (∃ rest, log = EvLogInfo "Using test data to get hosts list"
                      :: EvGetTestListHosts cluster_id :: rest ∧
              Forall (λ e, is_hosts_call e = false) rest) ∧
     let w1 := MkWorld (fs w) (trace w ++ [EvLogInfo "Using test data to get hosts list";
                                           EvGetTestListHosts cluster_id]) in
     match get_test_list_hosts cluster_id with
     | Ok hosts_list =>
         r = try_except_Exception (update_with_hosts_list ignition_file hosts_list)
               (λ ex, raise (wrapped ex)) w1
     | Raise ex => r = (Raise (surfaced ex), w1)
     end).
Proof.
  intros r log.
  destruct (update_bmh_files_events ignition_file cluster_id inventory_endpoint w)
    as (rest & Hlog & Hrest).
  fold r in Hlog. fold log in Hlog.
  pose proof (update_bmh_files_with_hosts_list ignition_file cluster_id
                inventory_endpoint w) as Hrun.
  fold r in Hrun. cbv zeta in Hrun. split.
  - intros endpoint -> Hne. destruct endpoint as [|c s]; [done|]. split.
    + exists rest. by rewrite Hlog.
    + simpl in Hrun. cbv zeta.
      by destruct (get_inventory_hosts (String c s) cluster_id).
  - intros Hnone. split.
    + exists rest. rewrite Hlog. by destruct Hnone as [->| ->].
    + cbv zeta.
      assert (hosts_result cluster_id inventory_endpoint = get_test_list_hosts cluster_id
              ∧ hosts_events cluster_id inventory_endpoint
                = [EvLogInfo "Using test data to get hosts list";
                   EvGetTestListHosts cluster_id]) as [Hres Hev]
        by by destruct Hnone as [->| ->].
      rewrite Hres, Hev in Hrun.
      by destruct (get_test_list_hosts cluster_id).
Qed.

(** C8.  Whatever fails inside [update_bmh_files] -- obtaining the host
    list, opening or decoding the document, examining or mutating an entry,
    or writing the document back -- the caller receives one exception of
    class [Exception] whose text is the fixed prefix followed by the text
    of the exception that was raised.  (An exception outside the class
    [Exception], such as [KeyboardInterrupt], is not a failure of the
    function and passes through untouched.)  And the function raises
    nothing else: what it raises comes from one of these steps. *)
Theorem update_bmh_files_single_failure_surface
    ignition_file cluster_id inventory_endpoint w :
  let r := update_bmh_files ignition_file cluster_id inventory_endpoint w in
  (∀ ex,
     fails_before_persist ignition_file cluster_id inventory_endpoint w ex ∨
     (∃ data' w1,
        decode_and_update ignition_file cluster_id inventory_endpoint w = (Ok data', w1) ∧
        (json_dump data').2 = Some ex) →
     is_Exception ex = true →
     r.1 = Raise (Exn Exception (failed_to_update +:+ exn_str ex))) ∧
  (∀ e, r.1 = Raise e →
     ∃ ex, e = surfaced ex ∧
       (fails_before_persist ignition_file cluster_id inventory_endpoint w ex ∨
        ∃ data' w1,
          decode_and_update ignition_file cluster_id inventory_endpoint w
            = (Ok data', w1) ∧
          (json_dump data').2 = Some ex)).
Proof.
  intros r. split.
  - intros ex [Hfail|(data' & w1 & Hrun & Hdump)] Hex.
    + apply fails_before_persist_raises in Hfail.
      destruct (decode_and_update ignition_file cluster_id inventory_endpoint w)
        as [res w1] eqn:Hrun.
      simpl in Hfail. subst res r.
      rewrite (update_bmh_files_failed _ _ _ _ _ _ Hrun). simpl.
      unfold surfaced. by rewrite Hex.
    + subst r. rewrite (update_bmh_files_persist _ _ _ _ _ _ Hrun). simpl.
      rewrite Hdump. unfold surfaced. by rewrite Hex.
  - intros e. subst r.
    destruct (decode_and_update ignition_file cluster_id inventory_endpoint w)
      as [[data'|ex] w1] eqn:Hrun.
    + rewrite (update_bmh_files_persist _ _ _ _ _ _ Hrun). simpl.
      destruct (json_dump data').2 as [ex|] eqn:Hdump; [|done].
      intros [= <-]. exists ex. split; [done|]. right. eauto.
    + rewrite (update_bmh_files_failed _ _ _ _ _ _ Hrun). simpl.
      intros [= <-]. exists ex. split; [done|]. left.
      apply fails_before_persist_raises. by rewrite Hrun.
Qed.

(** *** Lines 57-58 *)

Lemma take_S_length_app {A} (l : list A) (x y : A) :
  take (S (length l)) (l ++ [x; y]) = (l ++ [x])%list.
Proof. induction l as [|a l IH]; simpl; [done|]. simpl in IH. by rewrite IH. Qed.

Lemma contents_seen_at (files : gmap string string) (log : list event)
    (path : string) (k : nat) :
  (k ≤ length log)%nat →
  foldl (flip fs_step) files (take k log) !! path ∈ contents_seen files log path.
Proof.
  intros Hk. unfold contents_seen.
  apply (list_elem_of_fmap_2 (λ k, foldl (flip fs_step) files (take k log) !! path)).
  apply elem_of_seq. lia.
Qed.

(** C4, as the code has it.  The last step opens the document file itself
    for writing, which empties it at once, and then writes the
    serialisation into it: there is no temporary file, and no other file
    changes.  Between the two calls a reader finds the file empty.  When
    the serialisation completes, the file holds the complete new document
    and the function returns; when it stops early, the file holds the text
    written until then and the function raises. *)
Theorem update_bmh_files_overwrites_in_place
    ignition_file cluster_id inventory_endpoint w data' w1 :
  decode_and_update ignition_file cluster_id inventory_endpoint w = (Ok data', w1) →
  let r := update_bmh_files ignition_file cluster_id inventory_endpoint w in
  events_since w1 r.2
    = [EvOpenWrite ignition_file; EvWrite ignition_file (json_dump data').1] ∧
  Some "" ∈ contents_seen (fs w) (events_since w r.2) ignition_file ∧
  fs r.2 = <[ignition_file := (json_dump data').1]> (fs w) ∧
  ((json_dump data').2 = None → r.1 = Ok ()) ∧
  (∀ ex, (json_dump data').2 = Some ex → r.1 = Raise (surfaced ex)).
Proof.
  intros Hrun r. subst r. rewrite (update_bmh_files_persist _ _ _ _ _ _ Hrun). simpl.
  destruct (decode_and_update_world ignition_file cluster_id inventory_endpoint w)
    as (rest & Hw & _).
  rewrite Hrun in Hw. simpl in Hw. subst w1. simpl.
  split; [by rewrite events_since_app|].
  split; [|split; [done|split; [by intros ->|by intros ex ->]]].
  rewrite <- !app_assoc, events_since_app.
  rewrite (app_assoc (hosts_events cluster_id inventory_endpoint) rest).
  set (before := (hosts_events cluster_id inventory_endpoint ++ rest)%list).
  set (text := (json_dump data').1).
  assert (Some "" = foldl (flip fs_step) (fs w)
            (take (S (length before))
               (before ++ [EvOpenWrite ignition_file; EvWrite ignition_file text]))
            !! ignition_file) as ->.
  { rewrite take_S_length_app, foldl_app. simpl. by rewrite lookup_insert_eq. }
  apply contents_seen_at. rewrite length_app. simpl. lia.
Qed.
End Orchestrator.

(** C4, as stated, fails.  On a document without manifests the run returns,
    and on its way a reader finds the file empty: neither the old document
    nor the new one.  On a device that fails after 40 characters the run
    raises and leaves in the file the first 40 characters of the new
    document. *)
Lemma update_bmh_files_not_atomic :
  ¬ @replaces_atomically Demo.collaborators
      Demo.ignition_file "cluster-1" None (Demo.world [Demo.motd]) ∧
  (let r := @update_bmh_files Demo.collaborators_small_device
              Demo.ignition_file "cluster-1" None (Demo.world [Demo.motd]) in
   is_Raise r.1 = true ∧
   fs r.2 !! Demo.ignition_file ≠ fs (Demo.world [Demo.motd]) !! Demo.ignition_file ∧
   fs r.2 !! Demo.ignition_file ≠ Some (MiniJson.print (Demo.document [Demo.motd])) ∧
   ¬ @replaces_atomically Demo.collaborators_small_device
       Demo.ignition_file "cluster-1" None (Demo.world [Demo.motd])).
Proof.
  split; [|split; [|split; [|split]]].
  - intros Hatomic.
    destruct (Hatomic (Some "")) as [Hold|(data' & w1 & Hrun & _ & Hnew)].
    + apply list_elem_of_In. vm_compute. tauto.
    + vm_compute in Hold. discriminate Hold.
    + vm_compute in Hrun. injection Hrun as <- _.
      vm_compute in Hnew. discriminate Hnew.
  - vm_compute. reflexivity.
  - vm_compute. intros [=].
  - vm_compute. intros [=].
  - intros Hatomic.
    destruct (Hatomic (Some "")) as [Hold|(data' & w1 & Hrun & _ & Hnew)].
    + apply list_elem_of_In. vm_compute. tauto.
    + vm_compute in Hold. discriminate Hold.
    + vm_compute in Hrun. injection Hrun as <- _.
      vm_compute in Hnew. discriminate Hnew.
Qed.

(** ** The mutator of the specification *)

Section SpecMutator.
Context {MC : ManifestCodec}.
Context (inventory : string → string → result (list HostRecord))
        (test_hosts : string → result (list HostRecord))
        (locator : json → result bool)
        (load : string → result json) (dump : json → string * option exn).

Local Abbreviation C := (spec_collaborators inventory test_hosts locator load dump).

(** A call that returns has used the first unused host record and has
    changed nothing but the contents. *)
Lemma spec_update_ok e (hosts : list HostRecord) e' hosts' :
  spec_update_bmh_cr_file e hosts = Ok (e', hosts') →
  (∃ host, hosts = host :: hosts') ∧
  ∃ contents', e' = setitem e "contents" contents'.
Proof.
  unfold spec_update_bmh_cr_file, mbind, result_bind.
  destruct (getitem e "contents") as [contents|]; [|done].
  destruct (decode_manifest contents) as [manifest|]; [|done].
  destruct hosts as [|host unused]; [done|].
  destruct (encode_manifest contents _) as [contents'|]; [|done].
  intros [= <- <-]. eauto.
Qed.

Lemma spec_changes_only_contents : @changes_only_contents C.
Proof. intros e hosts e' hosts' Hupd. by apply spec_update_ok in Hupd as [_ ?]. Qed.

(** Every qualifying entry uses up one host record, from the front: when the
    loop returns, the host object holds the list without its first records,
    one for each qualifying entry.  So the manifest at ordinal position [p]
    is given the list from its position [p] on, and is written with the
    record at that position. *)
Lemma spec_loop_uses_hosts items (hosts : list HostRecord) w items' hosts' w' :
  @for_file_data C items hosts w = (Ok (items', hosts'), w') →
  hosts' = drop (@qualifying C items) hosts ∧ (@qualifying C items ≤ length hosts)%nat.
Proof.
  revert hosts w items'. induction items as [|e items IH]; intros hosts w items'.
  - simpl. run. intros [= _ <- _]. unfold qualifying. simpl. split; [done|lia].
  - simpl. run.
    destruct (getitem e "path") as [path|ex] eqn:Hpath; simpl; [|done].
    destruct (locator path) as [[|]|ex] eqn:Hloc; simpl; [| |done].
    + assert (@qualifying C (e :: items) = S (@qualifying C items)) as ->.
      { unfold qualifying, qualifies. simpl. rewrite Hpath. simpl. by rewrite Hloc. }
      destruct (spec_update_bmh_cr_file e hosts) as [[e' hosts1]|ex] eqn:Hupd;
        simpl; [|done].
      apply spec_update_ok in Hupd as [[host ->] _].
      destruct (@for_file_data C items hosts1 _) as [[[items1 hosts2]|ex] w1] eqn:Hrest;
        simpl; [|done].
      intros [= _ <- <-]. apply IH in Hrest as [-> Hle].
      simpl. split; [done|lia].
    + assert (@qualifying C (e :: items) = @qualifying C items) as ->.
      { unfold qualifying, qualifies. simpl. rewrite Hpath. simpl. by rewrite Hloc. }
      destruct (@for_file_data C items hosts w) as [[[items1 hosts2]|ex] w1] eqn:Hrest;
        simpl; [|done].
      intros [= _ <- <-]. by apply IH in Hrest.
Qed.

(** On well-formed entries the loop fails for want of a host, and for
    nothing else. *)
Lemma spec_loop_short items (hosts : list HostRecord) w :
  Forall (well_formed_entry locator) items →
  length hosts < @qualifying C items →
  (@for_file_data C items hosts w).1 = Raise correlation_error.
Proof.
  intros Hwf. revert hosts w.
  induction Hwf as [|e items (path & b & Hpath & Hloc & Hman) _ IH]; intros hosts w.
  - unfold qualifying. simpl. lia.
  - intros Hlt.
    assert (@qualifying C (e :: items)
            = if b then S (@qualifying C items) else @qualifying C items) as Hq.
    { unfold qualifying, qualifies. simpl. rewrite Hpath. simpl.
      rewrite Hloc. by destruct b. }
    rewrite Hq in Hlt. clear Hq.
    simpl. run. rewrite Hpath. simpl. rewrite Hloc. simpl. destruct b; simpl.
    + destruct (Hman eq_refl) as (contents & manifest & Hc & Hdec & Henc).
      unfold spec_update_bmh_cr_file, mbind, result_bind. rewrite Hc, Hdec.
      destruct hosts as [|host unused]; simpl; [done|].
      destruct (Henc host) as [contents' ->]. simpl.
      assert (length unused < @qualifying C items) as Hlt' by (simpl in Hlt; lia).
      specialize (IH unused
        (MkWorld (fs w) (trace w ++ [EvUpdateBmhCrFile e])) Hlt').
      destruct (@for_file_data C items unused _) as [[[items1 hosts2]|ex] w1];
        simpl in *; [discriminate IH|done].
    + specialize (IH hosts w Hlt).
      destruct (@for_file_data C items hosts w) as [[[items1 hosts2]|ex] w1];
        simpl in *; [discriminate IH|done].
Qed.

(** C3.  With the mutator of the specification: when the document has more
    qualifying entries than the host list has records, [update_bmh_files]
    raises, opens nothing for writing and leaves every file as it was; the
    surplus manifests are not passed over.  When nothing else is wrong with
    the entries, what is raised is the correlation error, in the wrapping
    of line 60. *)
Theorem update_bmh_files_too_few_hosts
    ignition_file cluster_id inventory_endpoint w
    (hosts : list HostRecord) text data items :
  @hosts_result C cluster_id inventory_endpoint = Ok hosts →
  fs w !! ignition_file = Some text →
  load text = Ok data →
  (getitem data "storage" ≫= λ storage, getitem storage "files" ≫= py_iter) = Ok items →
  length hosts < @qualifying C items →
  let r := @update_bmh_files C ignition_file cluster_id inventory_endpoint w in
  is_Raise r.1 = true ∧
  fs r.2 = fs w ∧
  Forall (λ e, is_write e = false) (events_since w r.2) ∧
  (Forall (well_formed_entry locator) items → r.1 = Raise (wrapped correlation_error)).
Proof.
  intros Hh Hopen Hload Hitems Hlt r.
  destruct (@for_file_data C items hosts w) as [[[items' hosts']|ex] w'] eqn:Hloop.
  { apply spec_loop_uses_hosts in Hloop as [_ Hle]. lia. }
  assert (@fails_before_persist C ignition_file cluster_id inventory_endpoint w ex)
    as Hfail.
  { eapply (@fails_loop C _ _ _ _ _ hosts text data items w); try done.
    by rewrite Hloop. }
  apply (@fails_before_persist_raises C) in Hfail.
  destruct (@update_bmh_files_failed_world C _ _ _ _ _ Hfail) as (Hr & Hfs & Hlog).
  fold r in Hr, Hfs, Hlog.
  repeat split; try done.
  - by rewrite Hr.
  - intros Hwf. rewrite Hr.
    pose proof (spec_loop_short items hosts w Hwf Hlt) as Hshort.
    rewrite Hloop in Hshort. simpl in Hshort. by injection Hshort as ->.
Qed.
End SpecMutator.

(** ** The upload *)

Lemma uploads_app log1 log2 : uploads (log1 ++ log2) = (uploads log1 ++ uploads log2)%list.
Proof. unfold uploads. by rewrite !flat_map_app. Qed.

Lemma append_inj_r (p a b : string) : p +:+ a = p +:+ b → a = b.
Proof. induction p as [|c p IH]; simpl; [done|]. intros [= H]. by apply IH. Qed.

(** No object is stored under the key of the plain kubeconfig. *)
Lemma s3_file_name_of_not_kubeconfig prefix file_name :
  s3_file_name_of prefix file_name ≠ prefix +:+ "/kubeconfig".
Proof.
  unfold s3_file_name_of.
  destruct (String.eqb_spec file_name "kubeconfig") as [->|Hne].
  - intros H%append_inj_r. discriminate H.
  - intros H%append_inj_r. injection H as H. done.
Qed.

Section UploadProperties.
Context {S : ObjectStore}.

Lemma upload_to_aws_run s3_client local_file bucket s3_file w :
  upload_to_aws s3_client local_file bucket s3_file w
  = match upload_file s3_client (trace w ++ [EvUploadFile local_file bucket s3_file])
            local_file bucket s3_file with
    | None =>
        (Ok true,
         MkWorld (fs w) (trace w ++ [EvUploadFile local_file bucket s3_file;
                                     EvPrint "Upload Successful"]))
    | Some ex =>
        if is_NoCredentialsError ex then
          (Ok false,
           MkWorld (fs w) (trace w ++ [EvUploadFile local_file bucket s3_file;
                                       EvPrint "Credentials not available"]))
        else
          (Raise ex, MkWorld (fs w) (trace w ++ [EvUploadFile local_file bucket s3_file]))
    end.
Proof.
  unfold upload_to_aws, try_except_NoCredentialsError, call_upload_file. run.
  destruct (upload_file s3_client _ local_file bucket s3_file) as [ex|]; simpl.
  - destruct (is_NoCredentialsError ex); [|done]. by rewrite <- app_assoc.
  - by rewrite <- app_assoc.
Qed.

(** The uploads of one call of [upload_to_aws]. *)
Lemma upload_to_aws_world s3_client local_file bucket s3_file w :
  ∃ log,
    (upload_to_aws s3_client local_file bucket s3_file w).2
    = MkWorld (fs w) (trace w ++ log) ∧
    uploads log = [(local_file, bucket, s3_file)].
Proof.
  rewrite upload_to_aws_run.
  destruct (upload_file s3_client _ local_file bucket s3_file) as [ex|];
    [destruct (is_NoCredentialsError ex)|]; simpl; eauto.
Qed.

Lemma for_file_name_cons s3_client bucket prefix root file_name files w :
  for_file_name s3_client bucket prefix root (file_name :: files) w
  = match upload_to_aws s3_client (os_path_join root file_name) bucket
            (s3_file_name_of prefix file_name)
            (MkWorld (fs w)
               (trace w ++ [EvLogInfo ("Uploading file: " +:+ file_name);
                            EvPrint (s3_file_name_of prefix file_name)])) with
    | (Ok _, w1) => for_file_name s3_client bucket prefix root files w1
    | (Raise ex, w1) => (Raise ex, w1)
    end.
Proof.
  cbn [for_file_name]. unfold mbind, M_bind, emit. cbn [fs trace fs_step].
  by rewrite <- app_assoc.
Qed.

(** The files of one directory: the uploads made are the first of those
    due, and all of them when the loop returns. *)
Lemma for_file_name_world s3_client bucket prefix root files w :
  ∃ log,
    (for_file_name s3_client bucket prefix root files w).2
    = MkWorld (fs w) (trace w ++ log) ∧
    uploads log `prefix_of` upload_requests bucket prefix [(root, [], files)] ∧
    ((for_file_name s3_client bucket prefix root files w).1 = Ok () →
     uploads log = upload_requests bucket prefix [(root, [], files)]).
Proof.
  unfold upload_requests, walked_files. simpl. rewrite app_nil_r.
  revert w. induction files as [|file_name files IH]; intros w.
  - exists []. simpl. run. by rewrite app_nil_r, world_eta.
  - rewrite for_file_name_cons.
    match goal with |- context [upload_to_aws ?c ?l ?b ?k ?w0] =>
      destruct (upload_to_aws_world c l b k w0) as (log1 & Hw1 & Hup1);
      destruct (upload_to_aws c l b k w0) as [[ok|ex] w1] end;
      simpl in Hw1; subst w1.
    + match goal with |- context [for_file_name _ _ _ _ _ ?w0] =>
        destruct (IH w0) as (log2 & Hw2 & Hpre & Hall) end.
      simpl in Hw2.
      eexists (_ :: _ :: log1 ++ log2)%list. split; [|split].
      * rewrite Hw2. f_equal. by rewrite <- !app_assoc.
      * simpl. rewrite uploads_app, Hup1. simpl. by apply prefix_cons.
      * intros Hok. simpl. rewrite uploads_app, Hup1. simpl. f_equal. by apply Hall.
    + eexists (_ :: _ :: log1)%list. split; [|split].
      * simpl. f_equal. by rewrite <- !app_assoc.
      * simpl. rewrite Hup1. apply prefix_cons. apply prefix_nil.
      * done.
Qed.

Lemma for_walk_world s3_client bucket prefix walk w :
  ∃ log,
    (for_walk s3_client bucket prefix walk w).2 = MkWorld (fs w) (trace w ++ log) ∧
    uploads log `prefix_of` upload_requests bucket prefix walk ∧
    ((for_walk s3_client bucket prefix walk w).1 = Ok () →
     uploads log = upload_requests bucket prefix walk).
Proof.
  revert w. induction walk as [|[[root dirs] files] walk IH]; intros w.
  - exists []. simpl. run. by rewrite app_nil_r, world_eta.
  - assert (upload_requests bucket prefix ((root, dirs, files) :: walk)
            = (upload_requests bucket prefix [(root, [], files)]
                 ++ upload_requests bucket prefix walk)%list) as ->.
    { unfold upload_requests, walked_files. simpl. by rewrite app_nil_r, map_app. }
    simpl. unfold mbind, M_bind.
    destruct (for_file_name_world s3_client bucket prefix root files w)
      as (log1 & Hw1 & Hpre1 & Hall1).
    destruct (for_file_name s3_client bucket prefix root files w) as [[[]|ex] w1];
      simpl in *; subst w1.
    + match goal with |- context [for_walk _ _ _ _ ?w0] =>
        destruct (IH w0) as (log2 & Hw2 & Hpre2 & Hall2) end.
      simpl in *. exists (log1 ++ log2)%list. split; [|split].
      * by rewrite Hw2, <- app_assoc.
      * rewrite uploads_app, (Hall1 eq_refl). by apply prefix_app.
      * intros Hok. by rewrite uploads_app, (Hall1 eq_refl), (Hall2 Hok).
    + exists log1. split; [done|]. split; [|done]. by apply prefix_app_r.
Qed.

(** C9.  The uploads that [upload_to_s3] makes are, in the order of the
    walk, those of the files found: each file is sent from its own path to
    the bucket, under the key made of the cluster id, a slash, and the base
    name of the file -- except that a file named kubeconfig goes under
    kubeconfig-noingress.  A run that returns has made all of them; a run
    that raises has made the first of them.  Nothing is ever stored under
    the key of the plain kubeconfig. *)
Theorem upload_to_s3_object_keys
    s3_endpoint_url bucket aws_access_key_id aws_secret_access_key
    install_dir cluster_id w :
  let r := upload_to_s3 s3_endpoint_url bucket aws_access_key_id
             aws_secret_access_key install_dir cluster_id w in
  let due :=
    map (λ '(root, file_name),
           (os_path_join root file_name, bucket,
            cluster_id +:+ "/" +:+
              (if decide (file_name = "kubeconfig")
               then "kubeconfig-noingress" else file_name)))
        (walked_files (os_walk install_dir)) in
  uploads (events_since w r.2) `prefix_of` due ∧
  (r.1 = Ok () → uploads (events_since w r.2) = due) ∧
  Forall (λ '(_, _, s3_file), s3_file ≠ cluster_id +:+ "/kubeconfig") due.
Proof.
  intros r due.
  assert (due = upload_requests bucket cluster_id (os_walk install_dir)) as ->.
  { unfold due, upload_requests. apply map_ext. intros [root file_name].
    unfold s3_file_name_of.
    by destruct (String.eqb_spec file_name "kubeconfig"); case_decide. }
  split; [|split].
  - subst r. unfold upload_to_s3, get_s3_client. run.
    destruct (boto3_client _ _ _ _) as [s3_client|ex]; simpl.
    + destruct (for_walk_world s3_client bucket cluster_id (os_walk install_dir) w)
        as (log & Hw & Hpre & _).
      rewrite Hw, events_since_app. done.
    + unfold events_since. rewrite drop_all. apply prefix_nil.
  - subst r. unfold upload_to_s3, get_s3_client. run.
    destruct (boto3_client _ _ _ _) as [s3_client|ex]; simpl; [|done].
    destruct (for_walk_world s3_client bucket cluster_id (os_walk install_dir) w)
      as (log & Hw & _ & Hall).
    rewrite Hw, events_since_app. done.
  - unfold upload_requests. apply Forall_forall. intros [[local b] s3_file] Hin.
    apply list_elem_of_fmap in Hin as ([root file_name] & [= -> -> ->] & _).
    apply s3_file_name_of_not_kubeconfig.
Qed.

(** C10.  An upload that fails for want of credentials does not raise:
    [upload_to_aws] returns [False].  And [upload_to_s3] does not look at
    what [upload_to_aws] returns: when the only way in which uploads fail is
    the want of credentials, it goes through every file of the walk,
    attempts the upload of each, and returns to its caller without an
    error. *)
Theorem upload_to_s3_ignores_missing_credentials
    s3_endpoint_url bucket aws_access_key_id aws_secret_access_key
    install_dir cluster_id w s3_client :
  (∀ w0 local_file s3_file ex,
     upload_file s3_client (trace w0 ++ [EvUploadFile local_file bucket s3_file])
       local_file bucket s3_file = Some ex →
     is_NoCredentialsError ex = true →
     (upload_to_aws s3_client local_file bucket s3_file w0).1 = Ok false) ∧
  (boto3_client "s3" aws_access_key_id aws_secret_access_key s3_endpoint_url
     = Ok s3_client →
   (∀ log local_file s3_file ex,
      upload_file s3_client log local_file bucket s3_file = Some ex →
      is_NoCredentialsError ex = true) →
   let r := upload_to_s3 s3_endpoint_url bucket aws_access_key_id
              aws_secret_access_key install_dir cluster_id w in
   r.1 = Ok () ∧
   uploads (events_since w r.2)
     = upload_requests bucket cluster_id (os_walk install_dir)).
Proof.
  split.
  - intros w0 local_file s3_file ex Hup Hcred.
    by rewrite upload_to_aws_run, Hup, Hcred.
  - intros Hclient Hcred r.
    assert (Hfiles : ∀ root files w0,
      (for_file_name s3_client bucket cluster_id root files w0).1 = Ok ()).
    { intros root files. induction files as [|file_name files IH]; intros w0; [done|].
      rewrite for_file_name_cons, upload_to_aws_run. cbn [fs trace].
      destruct (upload_file s3_client _ _ bucket _) as [ex|] eqn:Hup.
      - rewrite (Hcred _ _ _ _ Hup). apply IH.
      - apply IH. }
    assert (Hwalk : ∀ walk w0,
      (for_walk s3_client bucket cluster_id walk w0).1 = Ok ()).
    { induction walk as [|[[root dirs] files] walk IH]; intros w0; [done|].
      simpl. unfold mbind, M_bind.
      pose proof (Hfiles root files w0) as Hdir.
      destruct (for_file_name s3_client bucket cluster_id root files w0)
        as [[[]|ex] w1]; simpl in *; [apply IH|done]. }
    assert (r.1 = Ok ()) as Hok.
    { subst r. unfold upload_to_s3, get_s3_client. run. rewrite Hclient. simpl.
      apply Hwalk. }
    split; [done|].
    subst r. unfold upload_to_s3, get_s3_client in *. revert Hok. run.
    rewrite Hclient. simpl. intros Hok.
    destruct (for_walk_world s3_client bucket cluster_id (os_walk install_dir) w)
      as (log & Hw & _ & Hall).
    rewrite Hw, events_since_app. by apply Hall.
Qed.

(** The dry run prints, for the same files, the same object names under
    the prefix dummy_cluster_id. *)
Lemma debug_print_upload_to_s3_lines install_dir w :
  debug_print_upload_to_s3 install_dir w
  = (Ok (),
     MkWorld (fs w)
       (trace w ++
        map (λ '(root, file_name),
               EvPrint ("Uploading file " +:+ os_path_join root file_name +:+
                        " as object " +:+
                        s3_file_name_of "dummy_cluster_id" file_name))
            (walked_files (os_walk install_dir)))).
Proof.
  unfold debug_print_upload_to_s3. generalize (os_walk install_dir) as walk.
  intros walk. revert w. induction walk as [|[[root dirs] files] walk IH]; intros w.
  - simpl. run. by rewrite app_nil_r, world_eta.
  - simpl. unfold walked_files. simpl. rewrite map_app. fold (walked_files walk).
    unfold mbind, M_bind.
    assert (∀ w0, debug_for_file_name "dummy_cluster_id" root files w0
              = (Ok (), MkWorld (fs w0) (trace w0 ++
                   map (λ '(root, file_name),
                          EvPrint ("Uploading file " +:+ os_path_join root file_name
                                   +:+ " as object " +:+
                                   s3_file_name_of "dummy_cluster_id" file_name))
                       (map (λ file_name, (root, file_name)) files)))) as Hdir.
    { induction files as [|file_name files IHf]; intros w0.
      - simpl. run. by rewrite app_nil_r, world_eta.
      - simpl. run. rewrite IHf. simpl. by rewrite <- app_assoc. }
    rewrite Hdir, IH. simpl. by rewrite <- app_assoc.
Qed.
End UploadProperties.

(** * The statements at work on the fixtures *)

(** C1 on the fixtures: with two manifests and one host record the mutation
    of the second manifest raises and nothing is written; with one manifest
    the file is opened for writing, after the manifest was updated. *)
Lemma update_bmh_files_failure_writes_nothing_witness :
  (let w := Demo.world [Demo.bmh "master-0"; Demo.bmh "master-1"] in
   let r := @update_bmh_files Demo.collaborators Demo.ignition_file "cluster-1" None w in
   r.1 = Raise (surfaced correlation_error) ∧ fs r.2 = fs w ∧
   Forall (λ e, is_write e = false) (events_since w r.2)) ∧
  (let w := Demo.world [Demo.motd; Demo.bmh "master-0"] in
   let r := @update_bmh_files Demo.collaborators Demo.ignition_file "cluster-1" None w in
   ∃ hosts text data data',
     @hosts_result Demo.collaborators "cluster-1" None = Ok hosts ∧
     fs w !! Demo.ignition_file = Some text ∧
     MiniJson.load text = Ok data ∧
     @updated_document Demo.collaborators data data' ∧
     fs r.2 !! Demo.ignition_file = Some (MiniJson.dump data').1).
Proof.
  split.
  - apply (@update_bmh_files_failure_writes_nothing Demo.collaborators
             Demo.ignition_file "cluster-1" None
             (Demo.world [Demo.bmh "master-0"; Demo.bmh "master-1"])).
    apply (@fails_loop Demo.collaborators _ _ _ _ _ Demo.hosts
             (MiniJson.print (Demo.document [Demo.bmh "master-0"; Demo.bmh "master-1"]))
             (Demo.document [Demo.bmh "master-0"; Demo.bmh "master-1"])
             [Demo.bmh "master-0"; Demo.bmh "master-1"]
             (Demo.world [])).
    all: vm_compute; reflexivity.
  - apply (@update_bmh_files_failure_writes_nothing Demo.collaborators
             Demo.ignition_file "cluster-1" None
             (Demo.world [Demo.motd; Demo.bmh "master-0"])).
    exists (EvOpenWrite Demo.ignition_file). split; [|reflexivity].
    apply list_elem_of_In. vm_compute. tauto.
Defined.

(** C2 on the fixtures: a document with an ordinary file and one manifest. *)
Lemma update_bmh_files_frame_witness :
  let w := Demo.world [Demo.motd; Demo.bmh "master-0"] in
  let r := @update_bmh_files Demo.collaborators Demo.ignition_file "cluster-1" None w in
  ∃ data' items',
    fs r.2 !! Demo.ignition_file = Some (MiniJson.dump data').1 ∧
    (MiniJson.dump data').2 = None ∧
    (∀ k, k ≠ "storage" →
          getitem data' k = getitem (Demo.document [Demo.motd; Demo.bmh "master-0"]) k) ∧
    (getitem data' "storage" ≫= λ storage, getitem storage "files" ≫= py_iter)
      = Ok items' ∧
    length items' = 2 ∧
    (∀ e', items' !! 0 = Some e' → e' = Demo.motd) ∧
    (∀ e', items' !! 1 = Some e' →
           ∃ contents', e' = setitem (Demo.bmh "master-0") "contents" contents').
Proof.
  intros w r.
  destruct (@update_bmh_files_frame Demo.collaborators
              Demo.ignition_file "cluster-1" None w
              (MiniJson.print (Demo.document [Demo.motd; Demo.bmh "master-0"]))
              (Demo.document [Demo.motd; Demo.bmh "master-0"])
              [Demo.motd; Demo.bmh "master-0"])
    as (data' & items' & Hfile & Hdump & Helse & Hitems & Hlen & Hentries).
  1-4: vm_compute; reflexivity.
  exists data', items'. repeat split; try done.
  - intros e' He'. by apply (Hentries 0 Demo.motd e').
  - intros e' He'.
    apply (Hentries 1 (Demo.bmh "master-0") e'); [done|done|vm_compute; reflexivity|].
    apply spec_changes_only_contents.
Defined.

(** C3 on the fixtures: two manifests, one host record. *)
Lemma update_bmh_files_too_few_hosts_witness :
  let w := Demo.world [Demo.bmh "master-0"; Demo.bmh "master-1"] in
  let r := @update_bmh_files Demo.collaborators Demo.ignition_file "cluster-1" None w in
  is_Raise r.1 = true ∧
  fs r.2 = fs w ∧
  Forall (λ e, is_write e = false) (events_since w r.2) ∧
  r.1 = Raise (wrapped correlation_error).
Proof.
  intros w r.
  destruct (@update_bmh_files_too_few_hosts Demo.inline_manifest
              Demo.inventory Demo.test_hosts Demo.locator MiniJson.load MiniJson.dump
              Demo.ignition_file "cluster-1" None w Demo.hosts
              (MiniJson.print (Demo.document [Demo.bmh "master-0"; Demo.bmh "master-1"]))
              (Demo.document [Demo.bmh "master-0"; Demo.bmh "master-1"])
              [Demo.bmh "master-0"; Demo.bmh "master-1"])
    as (Hraise & Hfs & Hlog & Hcorr).
  1-4: vm_compute; reflexivity.
  { vm_compute. lia. }
  split; [exact Hraise|]. split; [exact Hfs|]. split; [exact Hlog|].
  apply Hcorr. repeat constructor.
  all: eexists _, true; repeat split; try (vm_compute; reflexivity).
  all: intros _; eexists _, _; repeat split; try (vm_compute; reflexivity).
  all: intros host; eexists; reflexivity.
Defined.

(** C4, as the code has it, on the fixtures. *)
Lemma update_bmh_files_overwrites_in_place_witness :
  let w := Demo.world [Demo.motd] in
  let r := @update_bmh_files Demo.collaborators Demo.ignition_file "cluster-1" None w in
  Some "" ∈ contents_seen (fs w) (events_since w r.2) Demo.ignition_file ∧
  fs r.2 = <[Demo.ignition_file := MiniJson.print (Demo.document [Demo.motd])]> (fs w) ∧
  r.1 = Ok ().
Proof.
  intros w r.
  destruct (@update_bmh_files_overwrites_in_place Demo.collaborators
              Demo.ignition_file "cluster-1" None w
              (Demo.document [Demo.motd])
              (MkWorld (fs w)
                 [EvLogInfo "Using test data to get hosts list";
                  EvGetTestListHosts "cluster-1"; EvOpenRead Demo.ignition_file]))
    as (_ & Hseen & Hfs & Hok & _).
  { vm_compute. reflexivity. }
  split; [exact Hseen|]. split; [exact Hfs|]. by apply Hok.
Defined.

(** C5 on the fixtures: a document without manifests. *)
Lemma update_bmh_files_round_trip_witness :
  let w := Demo.world [Demo.motd] in
  let r := @update_bmh_files Demo.collaborators Demo.ignition_file "cluster-1" None w in
  ∃ out,
    fs r.2 !! Demo.ignition_file = Some out ∧
    out = MiniJson.print (Demo.document [Demo.motd]) ∧
    MiniJson.load out = Ok (Demo.document [Demo.motd]).
Proof.
  intros w r.
  destruct (@update_bmh_files_round_trip Demo.collaborators
              Demo.ignition_file "cluster-1" None w
              (MiniJson.print (Demo.document [Demo.motd]))
              (Demo.document [Demo.motd]) [Demo.motd])
    as (out & Hfile & Hdump & Hsame & Hload).
  1-3: vm_compute; reflexivity.
  { repeat constructor. }
  { vm_compute. reflexivity. }
  exists out. split; [done|]. split.
  - apply Hsame. reflexivity.
  - etrans; [apply Hload|]; vm_compute; reflexivity.
Defined.

(** C6 on the fixtures: one run asks the test provider, the other the
    inventory, in a world with another file and an earlier log. *)
Lemma update_bmh_files_deterministic_witness :
  let text := MiniJson.print (Demo.document [Demo.motd; Demo.bmh "master-0"]) in
  let w1 := Demo.world [Demo.motd; Demo.bmh "master-0"] in
  let w2 := MkWorld {[ Demo.ignition_file := text; "installer_dir/master.ign" := "{}" ]}
                    [EvPrint "earlier"] in
  let r1 := @update_bmh_files Demo.collaborators Demo.ignition_file "cluster-1" None w1 in
  let r2 := @update_bmh_files Demo.collaborators Demo.ignition_file "cluster-2"
              (Some "http://inventory:8090") w2 in
  r1.1 = r2.1 ∧ fs r1.2 !! Demo.ignition_file = fs r2.2 !! Demo.ignition_file.
Proof.
  intros text w1 w2.
  apply (@update_bmh_files_deterministic Demo.collaborators
           Demo.ignition_file "cluster-1" None w1
           "cluster-2" (Some "http://inventory:8090") w2).
  all: vm_compute; reflexivity.
Defined.

(** C7 on the fixtures, where the inventory knows another host than the
    test data: with an endpoint the run goes on with the host of the
    inventory; with an endpoint that cannot be reached it ends at once;
    with an empty endpoint it goes on with the host of the test data. *)
Lemma update_bmh_files_resolves_hosts_once_witness :
  let w := Demo.world [Demo.bmh "master-0"] in
  let run := @update_bmh_files DemoScript.collaborators_with_inventory
               Demo.ignition_file "cluster-1" in
  let rest_of_run :=
    try_except_Exception
      (@update_with_hosts_list DemoScript.collaborators_with_inventory
         Demo.ignition_file DemoScript.inventory_hosts)
      (λ ex, raise (wrapped ex)) in
  let rest_of_test_run :=
    try_except_Exception
      (@update_with_hosts_list DemoScript.collaborators_with_inventory
         Demo.ignition_file Demo.hosts)
      (λ ex, raise (wrapped ex)) in
  ((∃ rest,
      events_since w (run (Some "http://inventory:8090") w).2
      = EvGetInventoryHosts "http://inventory:8090" "cluster-1" :: rest ∧
      Forall (λ e, is_hosts_call e = false) rest) ∧
   run (Some "http://inventory:8090") w
   = rest_of_run
       (MkWorld (fs w) [EvGetInventoryHosts "http://inventory:8090" "cluster-1"])) ∧
  run (Some "http://nowhere") w
  = (Raise (wrapped (Exn (OtherException "RetrievalError") "inventory unreachable")),
     MkWorld (fs w) [EvGetInventoryHosts "http://nowhere" "cluster-1"]) ∧
  ((∃ rest,
      events_since w (run (Some "") w).2
      = EvLogInfo "Using test data to get hosts list"
          :: EvGetTestListHosts "cluster-1" :: rest ∧
      Forall (λ e, is_hosts_call e = false) rest) ∧
   run (Some "") w
   = rest_of_test_run
       (MkWorld (fs w) [EvLogInfo "Using test data to get hosts list";
                        EvGetTestListHosts "cluster-1"])) ∧
  fs (run (Some "http://inventory:8090") w).2 !! Demo.ignition_file
  ≠ fs (run (Some "") w).2 !! Demo.ignition_file.
Proof.
  intros w run rest_of_run rest_of_test_run. split; [|split; [|split]].
  4: { destruct (@update_bmh_files_resolves_hosts_once
                   DemoScript.collaborators_with_inventory
                   Demo.ignition_file "cluster-1" (Some "http://inventory:8090") w)
         as [Hinventory _].
       destruct (Hinventory "http://inventory:8090" eq_refl ltac:(discriminate))
         as [_ Hrun].
       destruct (@update_bmh_files_resolves_hosts_once
                   DemoScript.collaborators_with_inventory
                   Demo.ignition_file "cluster-1" (Some "") w)
         as [_ Htest].
       destruct (Htest (or_intror eq_refl)) as [_ Hrun'].
       subst run. cbv beta. rewrite Hrun, Hrun'. vm_compute. discriminate. }
  - exact (proj1 (@update_bmh_files_resolves_hosts_once
                    DemoScript.collaborators_with_inventory
                    Demo.ignition_file "cluster-1" (Some "http://inventory:8090") w)
             "http://inventory:8090" eq_refl ltac:(discriminate)).
  - exact (proj2 (proj1 (@update_bmh_files_resolves_hosts_once
                           DemoScript.collaborators_with_inventory
                           Demo.ignition_file "cluster-1" (Some "http://nowhere") w)
                    "http://nowhere" eq_refl ltac:(discriminate))).
  - exact (proj2 (@update_bmh_files_resolves_hosts_once
                    DemoScript.collaborators_with_inventory
                    Demo.ignition_file "cluster-1" (Some "") w)
             (or_intror eq_refl)).
Defined.

(** C8 on the fixtures: an inventory that cannot be reached, and a device
    that fails during the write. *)
Lemma update_bmh_files_single_failure_surface_witness :
  let w := Demo.world [Demo.motd] in
  (@update_bmh_files Demo.collaborators Demo.ignition_file "cluster-1"
     (Some "http://nowhere") w).1
  = Raise (Exn Exception (failed_to_update +:+ "inventory unreachable")) ∧
  (@update_bmh_files Demo.collaborators_small_device Demo.ignition_file "cluster-1"
     None w).1
  = Raise (Exn Exception (failed_to_update +:+ "[Errno 28] No space left on device")).
Proof.
  intros w. split.
  - apply (proj1 (@update_bmh_files_single_failure_surface Demo.collaborators
                    Demo.ignition_file "cluster-1" (Some "http://nowhere") w)
             (Exn (OtherException "RetrievalError") "inventory unreachable")).
    + left. apply fails_hosts. reflexivity.
    + reflexivity.
  - apply (proj1 (@update_bmh_files_single_failure_surface
                    Demo.collaborators_small_device
                    Demo.ignition_file "cluster-1" None w)
             MiniJson.no_space).
    + right. eexists _, _. split; vm_compute; reflexivity.
    + reflexivity.
Defined.

(** C9 on the fixtures: the five files of the installer directory. *)
Lemma upload_to_s3_object_keys_witness :
  let w := MkWorld ∅ [] in
  uploads (events_since w
             (@upload_to_s3 Demo.store "http://s3:9000" "test" "accessKey1"
                "verySecretKey1" "installer_dir" "cluster-1" w).2)
  = [("installer_dir/bootstrap.ign", "test", "cluster-1/bootstrap.ign");
     ("installer_dir/master.ign", "test", "cluster-1/master.ign");
     ("installer_dir/metadata.json", "test", "cluster-1/metadata.json");
     ("installer_dir/auth/kubeconfig", "test", "cluster-1/kubeconfig-noingress");
     ("installer_dir/auth/kubeadmin-password", "test", "cluster-1/kubeadmin-password")].
Proof.
  intros w.
  apply (@upload_to_s3_object_keys Demo.store "http://s3:9000" "test" "accessKey1"
           "verySecretKey1" "installer_dir" "cluster-1" w).
  vm_compute. reflexivity.
Defined.

(** C10 on the fixtures: no credentials at all. *)
Lemma upload_to_s3_ignores_missing_credentials_witness :
  let w := MkWorld ∅ [] in
  let r := @upload_to_s3 Demo.store_without_credentials "http://s3:9000" "test"
             "accessKey1" "verySecretKey1" "installer_dir" "cluster-1" w in
  (@upload_to_aws Demo.store_without_credentials ()
     "installer_dir/auth/kubeconfig" "test" "cluster-1/kubeconfig-noingress" w).1
  = Ok false ∧
  r.1 = Ok () ∧
  length (uploads (events_since w r.2)) = 5.
Proof.
  intros w r.
  destruct (@upload_to_s3_ignores_missing_credentials Demo.store_without_credentials
              "http://s3:9000" "test" "accessKey1" "verySecretKey1"
              "installer_dir" "cluster-1" w ()) as [Haws Hs3].
  split.
  - eapply Haws; reflexivity.
  - destruct Hs3 as [Hok Hup].
    + reflexivity.
    + by intros log local_file s3_file ex [= <-].
    + split; [exact Hok|]. subst r. by rewrite Hup.
Defined.

(** * The rest of the script *)

(** ** Paths and object keys *)

(** A name that does not begin with a slash is appended to the directory:
    as it is when the directory is empty or ends with a slash, after one
    slash otherwise. *)
Lemma os_path_join_relative a b :
  (∀ rest, b ≠ String "/" rest) →
  os_path_join a b = a +:+ (if decide (a = "" ∨ ends_with_slash a = true) then "" else "/")
                       +:+ b.
Proof.
  intros Hrel. unfold os_path_join.
  assert (match b with
          | String "/" _ => b
          | _ => match a with
                 | EmptyString => b
                 | _ => if ends_with_slash a then a +:+ b else a +:+ "/" +:+ b
                 end
          end
          = match a with
            | EmptyString => b
            | _ => if ends_with_slash a then a +:+ b else a +:+ "/" +:+ b
            end) as ->.
  { destruct b as [|c b]; [done|].
    destruct (Ascii.eqb_spec c "/") as [->|Hc]; [by destruct (Hrel b)|].
    destruct c as [[] [] [] [] [] [] [] []]; try done. }
  destruct a as [|c a].
  { destruct (decide _) as [|Hn]; [done|]. exfalso. apply Hn. by left. }
  destruct (ends_with_slash (String c a)) eqn:Hs;
    destruct (decide _) as [[?|?]|Hn]; try done.
  exfalso. apply Hn. by right.
Qed.

(** [os.path.join] keeps the files of a directory apart: two names
    that do not begin with a slash and are joined to the same directory give
    the same path only when they are the same name. *)
Theorem os_path_join_inj a b1 b2 :
  (∀ rest, b1 ≠ String "/" rest) →
  (∀ rest, b2 ≠ String "/" rest) →
  os_path_join a b1 = os_path_join a b2 →
  b1 = b2.
Proof.
  intros H1 H2. rewrite (os_path_join_relative a b1 H1), (os_path_join_relative a b2 H2).
  intros Heq%append_inj_r. by apply append_inj_r in Heq.
Qed.

(** The install config and its backup are two files. *)
Lemma install_config_paths_differ config_dir :
  os_path_join config_dir INSTALL_CONFIG ≠ os_path_join config_dir INSTALL_CONFIG_BACKUP.
Proof.
  rewrite !os_path_join_relative by done.
  intros Heq%append_inj_r. by apply append_inj_r in Heq.
Qed.

(** X4.  Two base names get the same object key exactly when they are the
    same name or are kubeconfig and kubeconfig-noingress: the renaming of
    line 72 makes these two, and no other two, collide. *)
Theorem s3_file_name_of_collision prefix f g :
  s3_file_name_of prefix f = s3_file_name_of prefix g ↔
  f = g ∨
  (f = "kubeconfig" ∧ g = "kubeconfig-noingress") ∨
  (f = "kubeconfig-noingress" ∧ g = "kubeconfig").
Proof.
  unfold s3_file_name_of. split.
  - intros Heq%append_inj_r. injection Heq as Heq.
    destruct (String.eqb_spec f "kubeconfig") as [Hf|Hf],
             (String.eqb_spec g "kubeconfig") as [Hg|Hg].
    + left. congruence.
    + right. left. by split.
    + right. right. by split.
    + by left.
  - intros [->|[[-> ->]|[-> ->]]]; done.
Qed.

(** ** The install config *)

Section InstallConfigProperties.
Context {D : Disk}.

(** The four ways of [prepare_install_config]. *)
Lemma prepare_install_config_run config_dir install_config w :
  prepare_install_config config_dir install_config w
  = let path := os_path_join config_dir INSTALL_CONFIG in
    match fs w !! path, install_config with
    | Some _, _ => (Ok (), w)
    | None, Some (String c text) =>
        match open_for_writing path (fs w) with
        | Some ex =>
            (Raise ex,
             MkWorld (fs w) (trace w ++ [EvLogInfo "writing install config to file"]))
        | None =>
            (Ok (),
             MkWorld (<[path := String c text]> (fs w))
                     (trace w ++ [EvLogInfo "writing install config to file";
                                  EvOpenWrite path; EvWrite path (String c text)]))
        end
    | None, _ => (Raise (Exn Exception "install config was not provided"), w)
    end.
Proof.
  unfold prepare_install_config, os_path_exists, write_config, open_w_plus.
  generalize (os_path_join config_dir INSTALL_CONFIG). intros path. cbv zeta.
  destruct install_config as [[|c text]|]; simpl; run;
    destruct (fs w !! path) as [old|] eqn:Hold; simpl; rewrite ?Hold; simpl; try done.
  destruct (open_for_writing path (fs w)) as [ex|]; simpl; [done|].
  rewrite lookup_insert_eq, insert_insert_eq. simpl. by rewrite <- !app_assoc.
Qed.

(** X1.  When [prepare_install_config] returns, the install config exists.
    One that was there before is left as it was, whatever was provided, and
    nothing is logged; one that was missing now holds exactly the text
    provided, which was not empty.  No other file changes. *)
Theorem prepare_install_config_keeps_or_creates config_dir install_config w :
  let path := os_path_join config_dir INSTALL_CONFIG in
  let r := prepare_install_config config_dir install_config w in
  r.1 = Ok () →
  (is_Some (fs w !! path) → r.2 = w) ∧
  (fs w !! path = None →
   ∃ text, install_config = Some text ∧ text ≠ "" ∧ fs r.2 !! path = Some text) ∧
  (∀ other, other ≠ path → fs r.2 !! other = fs w !! other).
Proof.
  intros path r. subst path r. rewrite prepare_install_config_run. cbv zeta.
  generalize (os_path_join config_dir INSTALL_CONFIG). intros path.
  destruct (fs w !! path) as [old|] eqn:Hold; simpl.
  - intros _. split; [done|]. split; [done|]. done.
  - destruct install_config as [[|c text]|]; simpl; try done.
    destruct (open_for_writing path (fs w)) as [ex|]; simpl; [done|].
    intros _. split; [by intros [? [=]]|]. split.
    + intros _. exists (String c text). by rewrite lookup_insert_eq.
    + intros other Hother. by rewrite lookup_insert_ne.
Qed.

(** X2.  The two ways in which [prepare_install_config] fails before it has
    written anything.  When the install config is missing and none was
    provided ([None] or the empty text), it raises the exception of line 114
    and has changed and logged nothing; and a run that raises without having
    logged anything is such a run.  When the install config is missing, one
    was provided, and the file cannot be opened for writing -- the directory
    is missing, say -- it raises the error of [open], after the log line of
    line 117, and no file has changed: a text that was provided does not
    stand in for a directory that is not there. *)
Theorem prepare_install_config_failures config_dir install_config w :
  let path := os_path_join config_dir INSTALL_CONFIG in
  let r := prepare_install_config config_dir install_config w in
  (fs w !! path = None → truthy install_config = false →
   r = (Raise (Exn Exception "install config was not provided"), w)) ∧
  (∀ ex, r.1 = Raise ex → events_since w r.2 = [] →
   fs w !! path = None ∧ truthy install_config = false ∧
   ex = Exn Exception "install config was not provided") ∧
  (∀ ex, fs w !! path = None → truthy install_config = true →
   open_for_writing path (fs w) = Some ex →
   r = (Raise ex,
        MkWorld (fs w) (trace w ++ [EvLogInfo "writing install config to file"]))).
Proof.
  intros path r. subst path r. rewrite prepare_install_config_run. cbv zeta.
  generalize (os_path_join config_dir INSTALL_CONFIG). intros path.
  destruct (fs w !! path) as [old|] eqn:Hold; simpl.
  - split; [done|]. split; [done|]. done.
  - destruct install_config as [[|c text]|]; simpl.
    + split; [done|]. split; [|done]. by intros ex [= <-] _.
    + split; [done|]. split.
      * intros ex.
        destruct (open_for_writing path (fs w)) as [ex'|]; simpl; [|done].
        intros _. by rewrite events_since_app.
      * intros ex _ _ ->. done.
    + split; [done|]. split; [|done]. by intros ex [= <-] _.
Qed.

(** X3.  Once [prepare_install_config] has returned, a second call changes
    and logs nothing and returns, whatever is provided to it -- also when
    nothing is. *)
Theorem prepare_install_config_idempotent config_dir install_config install_config' w :
  let r := prepare_install_config config_dir install_config w in
  r.1 = Ok () →
  prepare_install_config config_dir install_config' r.2 = (Ok (), r.2).
Proof.
  intros r. subst r. rewrite !prepare_install_config_run. cbv zeta.
  generalize (os_path_join config_dir INSTALL_CONFIG). intros path.
  destruct (fs w !! path) as [old|] eqn:Hold; simpl.
  - by rewrite Hold.
  - destruct install_config as [[|c text]|]; simpl; try done.
    destruct (open_for_writing path (fs w)) as [ex|]; simpl; [done|].
    by rewrite lookup_insert_eq.
Qed.
End InstallConfigProperties.

(** ** More on the upload *)

Lemma upload_requests_single bucket prefix root dirs files :
  upload_requests bucket prefix [(root, dirs, files)]
  = map (λ file_name,
           (os_path_join root file_name, bucket, s3_file_name_of prefix file_name)) files.
Proof.
  unfold upload_requests, walked_files. simpl. rewrite app_nil_r.
  by rewrite <- list_fmap_compose.
Qed.

Lemma upload_requests_app bucket prefix walk1 walk2 :
  upload_requests bucket prefix (walk1 ++ walk2)
  = (upload_requests bucket prefix walk1 ++ upload_requests bucket prefix walk2)%list.
Proof. unfold upload_requests, walked_files. by rewrite flat_map_app, map_app. Qed.

Lemma upload_requests_cons bucket prefix dir walk :
  upload_requests bucket prefix (dir :: walk)
  = (upload_requests bucket prefix [dir] ++ upload_requests bucket prefix walk)%list.
Proof. apply (upload_requests_app bucket prefix [dir] walk). Qed.

Section UploadFailures.
Context {S : ObjectStore}.

(** A directory whose uploads fail, if at all, for want of credentials is
    gone through to its end. *)
Lemma for_file_name_returns s3_client bucket prefix root files w :
  (∀ file_name log ex,
     file_name ∈ files →
     upload_file s3_client log (os_path_join root file_name) bucket
       (s3_file_name_of prefix file_name) = Some ex →
     is_NoCredentialsError ex = true) →
  (for_file_name s3_client bucket prefix root files w).1 = Ok ().
Proof.
  revert w. induction files as [|file_name files IH]; intros w Hok; [done|].
  rewrite for_file_name_cons, upload_to_aws_run. cbn [fs trace].
  destruct (upload_file s3_client _ _ bucket _) as [ex|] eqn:Hup.
  - rewrite (Hok _ _ _ (list_elem_of_here _ _) Hup).
    apply IH. intros f log ex' Hf. apply Hok. by apply list_elem_of_further.
  - apply IH. intros f log ex' Hf. apply Hok. by apply list_elem_of_further.
Qed.

(** The first upload that raises something else ends the loop there. *)
Lemma for_file_name_stops s3_client bucket prefix root earlier file_name later ex w :
  (∀ f log ex',
     f ∈ earlier →
     upload_file s3_client log (os_path_join root f) bucket (s3_file_name_of prefix f)
       = Some ex' →
     is_NoCredentialsError ex' = true) →
  (∀ log, upload_file s3_client log (os_path_join root file_name) bucket
            (s3_file_name_of prefix file_name) = Some ex) →
  is_NoCredentialsError ex = false →
  ∃ log,
    for_file_name s3_client bucket prefix root (earlier ++ file_name :: later)%list w
    = (Raise ex, MkWorld (fs w) (trace w ++ log)) ∧
    uploads log = upload_requests bucket prefix [(root, [], (earlier ++ [file_name])%list)].
Proof.
  intros Hok Hbad Hex. revert w.
  induction earlier as [|f earlier IH]; intros w.
  - cbn [app]. rewrite for_file_name_cons, upload_to_aws_run, Hbad, Hex. cbn [fs trace].
    eexists. rewrite <- app_assoc. split; [done|].
    by rewrite upload_requests_single.
  - cbn [app]. rewrite for_file_name_cons.
    match goal with |- context [upload_to_aws ?c ?l ?b ?k ?w0] =>
      destruct (upload_to_aws_world c l b k w0) as (log1 & Hw1 & Hup1);
      pose proof (upload_to_aws_run c l b k w0) as Hrun;
      destruct (upload_to_aws c l b k w0) as [[ok|ex1] w1] end;
      simpl in Hw1; subst w1.
    + destruct (IH (λ f' log ex' Hf', Hok f' log ex' (list_elem_of_further _ _ _ Hf'))
                  (MkWorld (fs w)
                     ((trace w ++ [EvLogInfo ("Uploading file: " +:+ f);
                                   EvPrint (s3_file_name_of prefix f)]) ++ log1)))
        as (log2 & Hloop & Hup2).
      rewrite Hloop. simpl. eexists (_ :: _ :: log1 ++ log2)%list. split.
      * f_equal. f_equal. by rewrite <- !app_assoc.
      * simpl. rewrite uploads_app, Hup1, Hup2. by rewrite !upload_requests_single.
    + exfalso. cbn [fs trace] in Hrun.
      destruct (upload_file s3_client _ _ bucket _) as [ex'|] eqn:Hup; [|done].
      by rewrite (Hok _ _ _ (list_elem_of_here _ _) Hup) in Hrun.
Qed.

(** X5.  An upload that raises anything but the missing-credentials error
    ends [upload_to_s3] on the spot: the exception reaches the caller as it
    is, the files listed before the failing one were attempted, the failing
    one was attempted, and no file listed after it is. *)
Theorem upload_to_s3_stops_at_first_error
    s3_endpoint_url bucket aws_access_key_id aws_secret_access_key
    install_dir cluster_id w s3_client before root dirs earlier file_name later after ex :
  boto3_client "s3" aws_access_key_id aws_secret_access_key s3_endpoint_url
    = Ok s3_client →
  os_walk install_dir = (before ++ (root, dirs, (earlier ++ file_name :: later)%list) :: after)%list →
  (∀ local_file s3_file log ex',
     (local_file, bucket, s3_file)
       ∈ upload_requests bucket cluster_id (before ++ [(root, dirs, earlier)])%list →
     upload_file s3_client log local_file bucket s3_file = Some ex' →
     is_NoCredentialsError ex' = true) →
  (∀ log, upload_file s3_client log (os_path_join root file_name) bucket
            (s3_file_name_of cluster_id file_name) = Some ex) →
  is_NoCredentialsError ex = false →
  let r := upload_to_s3 s3_endpoint_url bucket aws_access_key_id
             aws_secret_access_key install_dir cluster_id w in
  r.1 = Raise ex ∧
  uploads (events_since w r.2)
    = upload_requests bucket cluster_id (before ++ [(root, dirs, (earlier ++ [file_name])%list)])%list.
Proof.
  intros Hclient Hwalk Hok Hbad Hex r. subst r.
  unfold upload_to_s3, get_s3_client. run. rewrite Hclient, Hwalk. simpl.
  clear Hclient Hwalk. revert w.
  induction before as [|[[root0 dirs0] files0] before IH]; intros w.
  - simpl. unfold mbind, M_bind.
    destruct (for_file_name_stops s3_client bucket cluster_id root earlier file_name
                later ex w) as (log & Hloop & Hup); try done.
    { intros f log ex' Hf. apply Hok. simpl. rewrite upload_requests_single.
      by apply (list_elem_of_fmap_2 (λ f0, (os_path_join root f0, bucket,
                                             s3_file_name_of cluster_id f0))). }
    rewrite Hloop. simpl. rewrite events_since_app, Hup.
    by rewrite !upload_requests_single.
  - simpl. unfold mbind, M_bind.
    assert ((for_file_name s3_client bucket cluster_id root0 files0 w).1 = Ok ()) as Hdir.
    { apply for_file_name_returns. intros f log ex' Hf. apply Hok.
      rewrite <- app_comm_cons, upload_requests_cons. apply elem_of_app. left.
      rewrite upload_requests_single.
      by apply (list_elem_of_fmap_2 (λ f0, (os_path_join root0 f0, bucket,
                                             s3_file_name_of cluster_id f0))). }
    assert (∀ local_file s3_file log ex',
              (local_file, bucket, s3_file)
                ∈ upload_requests bucket cluster_id (before ++ [(root, dirs, earlier)])%list →
              upload_file s3_client log local_file bucket s3_file = Some ex' →
              is_NoCredentialsError ex' = true) as Hok'.
    { intros l k log ex' Hin. apply Hok.
      rewrite <- app_comm_cons, upload_requests_cons. apply elem_of_app. by right. }
    destruct (for_file_name_world s3_client bucket cluster_id root0 files0 w)
      as (log1 & Hw1 & _ & Hall1).
    destruct (for_file_name s3_client bucket cluster_id root0 files0 w) as [res w1].
    simpl in Hw1, Hdir, Hall1 |- *. subst res w1.
    match goal with |- context [for_walk _ _ _ _ ?w0] =>
      destruct (IH Hok' w0) as [Hres Hup] end.
    split; [done|].
    destruct (for_walk_world s3_client bucket cluster_id
                (before ++ (root, dirs, (earlier ++ file_name :: later)%list) :: after)%list
                (MkWorld (fs w) (trace w ++ log1))) as (log2 & Hw2 & _).
    rewrite Hw2 in Hup. rewrite events_since_app in Hup.
    rewrite Hw2. cbn [fs trace snd].
    rewrite <- app_assoc, events_since_app, uploads_app, (Hall1 eq_refl).
    rewrite Hup, (upload_requests_cons _ _ _ (before ++ _)).
    by rewrite !upload_requests_single.
Qed.

(** X7.  [upload_to_s3] changes no local file.  And when the client cannot
    be made it raises what [boto3] raised, without a call and without looking
    at the directory. *)
Theorem upload_to_s3_leaves_files
    s3_endpoint_url bucket aws_access_key_id aws_secret_access_key
    install_dir cluster_id w :
  let r := upload_to_s3 s3_endpoint_url bucket aws_access_key_id
             aws_secret_access_key install_dir cluster_id w in
  fs r.2 = fs w ∧
  (∀ ex, boto3_client "s3" aws_access_key_id aws_secret_access_key s3_endpoint_url
           = Raise ex →
         r = (Raise ex, w)).
Proof.
  intros r. subst r. unfold upload_to_s3, get_s3_client. run.
  destruct (boto3_client _ _ _ _) as [s3_client|ex0]; simpl.
  - split; [|done].
    destruct (for_walk_world s3_client bucket cluster_id (os_walk install_dir) w)
      as (log & Hw & _).
    by rewrite Hw.
  - split; [done|]. by intros ex [= ->].
Qed.

(** X6.  The dry run always returns, changes no file and uploads nothing;
    it prints one line for each file of the walk, in order, and the object
    named on the line is the key under which [upload_to_s3] would store that
    file for the cluster id dummy_cluster_id. *)
Theorem debug_print_upload_to_s3_dry install_dir bucket w :
  let r := debug_print_upload_to_s3 install_dir w in
  r.1 = Ok () ∧
  fs r.2 = fs w ∧
  uploads (events_since w r.2) = [] ∧
  events_since w r.2
    = map (λ '(local_file, _, s3_file),
             EvPrint ("Uploading file " +:+ local_file +:+ " as object " +:+ s3_file))
          (upload_requests bucket "dummy_cluster_id" (os_walk install_dir)).
Proof.
  intros r. subst r. rewrite debug_print_upload_to_s3_lines. simpl.
  rewrite events_since_app. repeat split.
  - unfold uploads. induction (walked_files (os_walk install_dir)) as [|[??] l IH]; done.
  - unfold upload_requests. rewrite <- list_fmap_compose.
    apply map_ext. by intros [??].
Qed.
End UploadFailures.

(** ** More on [update_bmh_files] *)

Lemma updates_app log1 log2 : updates (log1 ++ log2) = (updates log1 ++ updates log2)%list.
Proof. unfold updates. by rewrite !flat_map_app. Qed.

Lemma updates_calls entries : updates (map EvUpdateBmhCrFile entries) = entries.
Proof. induction entries as [|e entries IH]; simpl; [done|]. by rewrite IH. Qed.

Lemma updates_hosts_events cluster_id inventory_endpoint :
  updates (hosts_events cluster_id inventory_endpoint) = [].
Proof. by destruct inventory_endpoint as [[|??]|]. Qed.

Section OrchestratorMore.
Context {C : Collaborators}.

Lemma filter_qualifies_cons e items :
  List.filter qualifies (e :: items)
  = if qualifies e then e :: List.filter qualifies items else List.filter qualifies items.
Proof. done. Qed.

(** The mutator is called on the qualifying entries, in the order of the
    document, each as the document had it; on all of them when the loop
    returns, on the first of them when it raises. *)
Lemma for_file_data_updates items hosts w :
  ∃ updated,
    (for_file_data items hosts w).2
    = MkWorld (fs w) (trace w ++ map EvUpdateBmhCrFile updated) ∧
    updated `prefix_of` List.filter qualifies items ∧
    (is_Raise (for_file_data items hosts w).1 = false →
     updated = List.filter qualifies items).
Proof.
  revert hosts w. induction items as [|e items IH]; intros hosts w.
  - exists []. simpl. run. by rewrite app_nil_r, world_eta.
  - rewrite filter_qualifies_cons. simpl. run.
    destruct (getitem e "path") as [path|ex] eqn:Hpath; simpl.
    2: { exists []. simpl. rewrite app_nil_r, world_eta.
         split; [done|]. split; [apply prefix_nil|done]. }
    destruct (is_bmh_cr_file path) as [[|]|ex] eqn:Hbmh; simpl.
    + assert (qualifies e = true) as ->.
      { unfold qualifies. rewrite Hpath. simpl. by rewrite Hbmh. }
      destruct (update_bmh_cr_file e hosts) as [[e' hosts']|ex]; simpl.
      * destruct (IH hosts' (MkWorld (fs w) (trace w ++ [EvUpdateBmhCrFile e])))
          as (updated & Hw & Hpre & Hall).
        exists (e :: updated).
        destruct (for_file_data items hosts' _) as [[[items' hosts'']|ex] w'];
          simpl in *; subst w'; simpl; rewrite <- app_assoc.
        -- split; [done|]. split; [by apply prefix_cons|].
           intros _. f_equal. by apply Hall.
        -- split; [done|]. split; [by apply prefix_cons|done].
      * exists [e]. split; [done|]. split; [|done].
        apply prefix_cons, prefix_nil.
    + assert (qualifies e = false) as ->.
      { unfold qualifies. rewrite Hpath. simpl. by rewrite Hbmh. }
      destruct (IH hosts w) as (updated & Hw & Hpre & Hall). exists updated.
      destruct (for_file_data items hosts w) as [[[items' hosts'']|ex] w'];
        simpl in *; by subst w'.
    + exists []. simpl. rewrite app_nil_r, world_eta.
      split; [done|]. split; [apply prefix_nil|done].
Qed.

(** X9.  In a run of [update_bmh_files] on a document with the entries
    [items], the mutator is called on qualifying entries only, in the order
    of the document and each at most once, with the entry as the document
    had it.  A run that returns has called it on every qualifying entry. *)
Theorem update_bmh_files_updates_in_order
    ignition_file cluster_id inventory_endpoint w text data items :
  fs w !! ignition_file = Some text →
  json_load text = Ok data →
  (getitem data "storage" ≫= λ storage, getitem storage "files" ≫= py_iter) = Ok items →
  let r := update_bmh_files ignition_file cluster_id inventory_endpoint w in
  updates (events_since w r.2) `prefix_of` List.filter qualifies items ∧
  (r.1 = Ok () → updates (events_since w r.2) = List.filter qualifies items).
Proof.
  intros Hopen Hload Hitems r. subst r.
  destruct (hosts_result cluster_id inventory_endpoint) as [hosts|ex0] eqn:Hh.
  - set (w0 := MkWorld (fs w)
                 (trace w ++ hosts_events cluster_id inventory_endpoint
                    ++ [EvOpenRead ignition_file])).
    unfold mbind, result_bind in Hitems.
    destruct (getitem data "storage") as [storage|] eqn:Hst; [|done].
    destruct (getitem storage "files") as [storage_files|] eqn:Hfiles; [|done].
    assert ((decode_and_update ignition_file cluster_id inventory_endpoint w).2
            = (for_file_data items hosts w0).2) as Hw.
    { unfold decode_and_update. unfold mbind at 1, M_bind at 1.
      rewrite resolve_hosts_list_run, Hh. simpl.
      unfold open_read, read_text. run. rewrite Hopen. simpl. rewrite Hload. simpl.
      rewrite Hst. simpl. rewrite Hfiles. simpl. rewrite Hitems. simpl.
      rewrite <- app_assoc. fold w0.
      by destruct (for_file_data items hosts w0) as [[[??]|?] ?]. }
    pose proof (decode_and_update_result ignition_file cluster_id inventory_endpoint
                  w w0) as Hres.
    rewrite Hh, Hopen in Hres. simpl in Hres. rewrite Hload in Hres. simpl in Hres.
    rewrite Hst in Hres. simpl in Hres. rewrite Hfiles in Hres. simpl in Hres.
    rewrite Hitems in Hres. simpl in Hres.
    destruct (for_file_data_updates items hosts w0) as (updated & Hw0 & Hpre & Hall).
    rewrite Hw0 in Hw. simpl in Hw. rewrite <- app_assoc in Hw.
    destruct (decode_and_update ignition_file cluster_id inventory_endpoint w)
      as [[data'|ex] w1] eqn:Hrun; simpl in Hw, Hres; subst w1.
    + rewrite (update_bmh_files_persist _ _ _ _ _ _ Hrun). simpl.
      rewrite <- !app_assoc, events_since_app, !updates_app, updates_hosts_events.
      rewrite updates_calls. simpl. rewrite app_nil_r.
      assert (updated = List.filter qualifies items) as ->; [|done].
      apply Hall. by destruct (for_file_data items hosts w0).1.
    + rewrite (update_bmh_files_failed _ _ _ _ _ _ Hrun). simpl.
      rewrite events_since_app, !updates_app, updates_hosts_events.
      rewrite ?updates_calls. simpl. done.
  - assert ((decode_and_update ignition_file cluster_id inventory_endpoint w)
            = (Raise ex0, MkWorld (fs w)
                            (trace w ++ hosts_events cluster_id inventory_endpoint)))
      as Hrun.
    { unfold decode_and_update. unfold mbind at 1, M_bind at 1.
      by rewrite resolve_hosts_list_run, Hh. }
    rewrite (update_bmh_files_failed _ _ _ _ _ _ Hrun). simpl.
    rewrite events_since_app, updates_hosts_events. split; [apply prefix_nil|done].
Qed.

(** X8.  [update_bmh_files] never touches a file other than the one it is
    given; it never creates that file when it is missing, and never removes
    it. *)
Theorem update_bmh_files_touches_one_file
    ignition_file cluster_id inventory_endpoint w :
  let r := update_bmh_files ignition_file cluster_id inventory_endpoint w in
  (∀ other, other ≠ ignition_file → fs r.2 !! other = fs w !! other) ∧
  (fs w !! ignition_file = None → fs r.2 = fs w) ∧
  (is_Some (fs w !! ignition_file) → is_Some (fs r.2 !! ignition_file)).
Proof.
  intros r. subst r.
  destruct (decode_and_update_world ignition_file cluster_id inventory_endpoint w)
    as (rest & Hw & _).
  destruct (decode_and_update ignition_file cluster_id inventory_endpoint w)
    as [[data'|ex] w1] eqn:Hrun; simpl in Hw.
  - destruct (decode_and_update_ok _ _ _ _ _ _ Hrun) as (_ & text & _ & _ & Hopen & _).
    rewrite (update_bmh_files_persist _ _ _ _ _ _ Hrun). subst w1. simpl.
    split; [|split].
    + intros other Hother. by rewrite lookup_insert_ne.
    + intros Hnone. congruence.
    + intros _. rewrite lookup_insert_eq. eauto.
  - rewrite (update_bmh_files_failed _ _ _ _ _ _ Hrun). subst w1. simpl. done.
Qed.
End OrchestratorMore.

(** ** The installer *)

Lemma calls_since_app s log files :
  calls_since s (MkMachine files (m_calls s ++ log)) = log.
Proof. unfold calls_since; simpl. by rewrite drop_app_length. Qed.

Lemma commands_app calls1 calls2 :
  commands (calls1 ++ calls2) = (commands calls1 ++ commands calls2)%list.
Proof. unfold commands. by rewrite !flat_map_app. Qed.

Ltac runP :=
  unfold mbind, P_bind, mret, P_ret, P_raise, record; simpl.

Section InstallerProperties.
Context {SP : Subprocess}.

(** The context manager, step by step. *)
Lemma backup_restore_install_config_run {A} config_dir (body : P A) s :
  backup_restore_install_config config_dir body s
  = let config := os_path_join config_dir INSTALL_CONFIG in
    let backup := os_path_join config_dir INSTALL_CONFIG_BACKUP in
    let saving :=
      [Ev (EvLogInfo "Saving install-config.yaml cause it will be deleted by installer");
       CallCopyfile config backup] in
    let restoring :=
      [Ev (EvLogInfo "Restoring install-config.yaml"); CallMove backup config] in
    match m_files s !! config with
    | None => (Raise (no_such_file config), MkMachine (m_files s) (m_calls s ++ saving))
    | Some text =>
        match body (MkMachine (<[backup := text]> (m_files s)) (m_calls s ++ saving)) with
        | (Raise ex, s1) => (Raise ex, s1)
        | (Ok a, s1) =>
            match m_files s1 !! backup with
            | None =>
                (Raise (no_such_file backup),
                 MkMachine (m_files s1) (m_calls s1 ++ restoring))
            | Some saved =>
                (Ok a,
                 MkMachine (<[config := saved]> (delete backup (m_files s1)))
                           (m_calls s1 ++ restoring))
            end
        end
    end.
Proof.
  pose proof (install_config_paths_differ config_dir) as Hne.
  unfold backup_restore_install_config, shutil_copyfile, shutil_move,
    copy_files, move_files.
  generalize dependent (os_path_join config_dir INSTALL_CONFIG). intros config.
  generalize (os_path_join config_dir INSTALL_CONFIG_BACKUP). intros backup Hne.
  runP. rewrite decide_False by done. rewrite <- !app_assoc. simpl.
  destruct (m_files s !! config) as [text|]; [|done].
  destruct (body _) as [[a|ex] s1]; [|done]. simpl.
  rewrite <- !app_assoc. simpl.
  by destruct (m_files s1 !! backup).
Qed.

(** The body of the [with] of [generate_installation_files]. *)
Lemma run_installer work_dir config_dir s :
  P_try_except_Exception
    (record (Ev (EvLogInfo "Generating installation files"));;
     subprocess_check_output (installer_command work_dir config_dir))
    (λ ex, P_raise (Exn Exception (failed_to_generate +:+ exn_str ex))) s
  = let cmd := installer_command work_dir config_dir in
    (match (check_output cmd (m_files s)).2 with
     | None => Ok ()
     | Some ex =>
         Raise (if is_Exception ex
                then Exn Exception (failed_to_generate +:+ exn_str ex) else ex)
     end,
     MkMachine (check_output cmd (m_files s)).1
               (m_calls s ++ [Ev (EvLogInfo "Generating installation files");
                              CallCheckOutput cmd])).
Proof.
  unfold P_try_except_Exception, subprocess_check_output, run_command. runP.
  rewrite <- !app_assoc. simpl.
  destruct (check_output _ _).2 as [ex|]; [|done].
  by destruct (is_Exception ex).
Qed.

(** X10.  The context manager gives the install config back.  When the
    install config exists and the body of the [with] returns, the install
    config afterwards holds what the backup holds at the end of the body --
    what the install config held at the start, if the body left the backup
    alone -- whatever the body did to the install config itself; the backup is
    gone, and every other file is as the body left it.  If the body removed
    the backup, the restore raises. *)
Theorem backup_restore_install_config_restores {A} config_dir (body : P A) s text a s1 :
  let config := os_path_join config_dir INSTALL_CONFIG in
  let backup := os_path_join config_dir INSTALL_CONFIG_BACKUP in
  m_files s !! config = Some text →
  body (MkMachine (<[backup := text]> (m_files s))
          (m_calls s ++
           [Ev (EvLogInfo "Saving install-config.yaml cause it will be deleted by installer");
            CallCopyfile config backup]))
    = (Ok a, s1) →
  let r := backup_restore_install_config config_dir body s in
  (∀ saved, m_files s1 !! backup = Some saved →
     r.1 = Ok a ∧
     m_files r.2 !! config = Some saved ∧
     m_files r.2 !! backup = None ∧
     ∀ other, other ≠ config → other ≠ backup →
              m_files r.2 !! other = m_files s1 !! other) ∧
  (m_files s1 !! backup = None → r.1 = Raise (no_such_file backup)).
Proof.
  intros config backup Hconfig Hbody r. subst r.
  pose proof (install_config_paths_differ config_dir) as Hne. fold config backup in Hne.
  rewrite backup_restore_install_config_run. cbv zeta. fold config backup.
  rewrite Hconfig, Hbody. split.
  - intros saved ->. simpl. split; [done|]. split; [by rewrite lookup_insert_eq|].
    split.
    + rewrite lookup_insert_ne by done. by rewrite lookup_delete_eq.
    + intros other Hc Hb. rewrite lookup_insert_ne by done.
      by rewrite lookup_delete_ne.
  - by intros ->.
Qed.

(** X11.  When the installer returns and has left the backup alone,
    [generate_installation_files] returns with the install config holding
    what it held before -- although the installer may have deleted it --,
    without the backup, and with every other file as the installer left it.
    The installer was run once, with the command of lines 102-103. *)
Theorem generate_installation_files_restores work_dir config_dir s text files' :
  let config := os_path_join config_dir INSTALL_CONFIG in
  let backup := os_path_join config_dir INSTALL_CONFIG_BACKUP in
  m_files s !! config = Some text →
  check_output (installer_command work_dir config_dir) (<[backup := text]> (m_files s))
    = (files', None) →
  files' !! backup = Some text →
  let r := generate_installation_files work_dir config_dir s in
  r.1 = Ok () ∧
  m_files r.2 !! config = Some text ∧
  m_files r.2 !! backup = None ∧
  (∀ other, other ≠ config → other ≠ backup → m_files r.2 !! other = files' !! other) ∧
  commands (calls_since s r.2) = [installer_command work_dir config_dir].
Proof.
  intros config backup Hconfig Hrun Hbackup r. subst r.
  pose proof (install_config_paths_differ config_dir) as Hne. fold config backup in Hne.
  unfold generate_installation_files. rewrite backup_restore_install_config_run.
  cbv zeta. fold config backup. rewrite Hconfig, run_installer. cbv zeta. simpl.
  rewrite Hrun. simpl. rewrite Hbackup. simpl.
  split; [done|]. split; [by rewrite lookup_insert_eq|]. split; [|split].
  - rewrite lookup_insert_ne by done. by rewrite lookup_delete_eq.
  - intros other Hc Hb. rewrite lookup_insert_ne by done. by rewrite lookup_delete_ne.
  - by rewrite <- !app_assoc, calls_since_app.
Qed.

(** X12.  When the installer fails, [generate_installation_files] raises the
    exception of line 108 and does not restore: after the command no call is
    made, the files are as the installer left them, so an install config that
    the installer deleted stays deleted and the backup stays where it is. *)
Theorem generate_installation_files_failure_skips_restore
    work_dir config_dir s text files' ex :
  let config := os_path_join config_dir INSTALL_CONFIG in
  let backup := os_path_join config_dir INSTALL_CONFIG_BACKUP in
  m_files s !! config = Some text →
  check_output (installer_command work_dir config_dir) (<[backup := text]> (m_files s))
    = (files', Some ex) →
  is_Exception ex = true →
  let r := generate_installation_files work_dir config_dir s in
  r.1 = Raise (Exn Exception (failed_to_generate +:+ exn_str ex)) ∧
  m_files r.2 = files' ∧
  calls_since s r.2
    = [Ev (EvLogInfo "Saving install-config.yaml cause it will be deleted by installer");
       CallCopyfile config backup;
       Ev (EvLogInfo "Generating installation files");
       CallCheckOutput (installer_command work_dir config_dir)].
Proof.
  intros config backup Hconfig Hrun Hex r. subst r.
  unfold generate_installation_files. rewrite backup_restore_install_config_run.
  cbv zeta. fold config backup. rewrite Hconfig, run_installer. cbv zeta. simpl.
  rewrite Hrun. simpl. rewrite Hex.
  split; [done|]. split; [done|]. by rewrite <- !app_assoc, calls_since_app.
Qed.

(** X13.  Without an install config [generate_installation_files] raises
    the error of [shutil.copyfile] as it is -- the copy is outside the [try]
    -- and the installer is not run; no file changes. *)
Theorem generate_installation_files_needs_config work_dir config_dir s :
  let config := os_path_join config_dir INSTALL_CONFIG in
  m_files s !! config = None →
  let r := generate_installation_files work_dir config_dir s in
  r.1 = Raise (no_such_file config) ∧
  m_files r.2 = m_files s ∧
  commands (calls_since s r.2) = [].
Proof.
  intros config Hconfig r. subst r.
  unfold generate_installation_files. rewrite backup_restore_install_config_run.
  cbv zeta. fold config. rewrite Hconfig. simpl.
  split; [done|]. split; [done|]. by rewrite calls_since_app.
Qed.
End InstallerProperties.

(** ** [main] *)

Lemma events_of_app calls1 calls2 :
  events_of (calls1 ++ calls2) = (events_of calls1 ++ events_of calls2)%list.
Proof. unfold events_of. by rewrite !flat_map_app. Qed.

Lemma events_of_Ev log : events_of (map Ev log) = log.
Proof. induction log as [|e log IH]; simpl; [done|]. by rewrite IH. Qed.

Lemma events_since_refl w : events_since w w = [].
Proof. unfold events_since. by rewrite drop_all. Qed.

Lemma uploads_updates entries : uploads (map EvUpdateBmhCrFile entries) = [].
Proof. by induction entries. Qed.

Lemma uploads_hosts_events cluster_id inventory_endpoint :
  uploads (hosts_events cluster_id inventory_endpoint) = [].
Proof. by destruct inventory_endpoint as [[|??]|]. Qed.

Lemma never_uploads_ret {A} (a : A) : never_uploads (mret a : P A).
Proof. intros s. exists []. by rewrite app_nil_r. Qed.

Lemma never_uploads_raise {A} ex : never_uploads (P_raise ex : P A).
Proof. intros s. exists []. by rewrite app_nil_r. Qed.

Lemma never_uploads_bind {A B} (m : P A) (f : A → P B) :
  never_uploads m → (∀ a, never_uploads (f a)) → never_uploads (m ≫= f).
Proof.
  intros Hm Hf s. unfold mbind, P_bind.
  destruct (Hm s) as (log1 & Hcalls1 & Hup1).
  destruct (m s) as [[a|ex] s1]; simpl in *.
  - destruct (Hf a s1) as (log2 & Hcalls2 & Hup2).
    exists (log1 ++ log2)%list. rewrite Hcalls2, Hcalls1, <- app_assoc.
    split; [done|]. by rewrite events_of_app, uploads_app, Hup1, Hup2.
  - by exists log1.
Qed.

(** A function of the first part that uploads nothing uploads nothing when
    the script runs it. *)
Lemma never_uploads_run_M {A} (m : M A) :
  (∀ w, uploads (events_since w (m w).2) = []) → never_uploads (run_M m).
Proof.
  intros Hm s. unfold run_M. simpl. eexists. split; [done|].
  by rewrite events_of_Ev.
Qed.

Lemma never_uploads_record c :
  (∀ l b k, c ≠ Ev (EvUploadFile l b k)) → never_uploads (record c).
Proof.
  intros Hc s. exists [c]. split; [done|].
  destruct c as [[]| | |]; try done. by destruct (Hc local_file bucket s3_file).
Qed.

Lemma prepare_install_config_no_uploads `{Disk} config_dir install_config w :
  uploads (events_since w (prepare_install_config config_dir install_config w).2) = [].
Proof.
  rewrite prepare_install_config_run. cbv zeta.
  destruct (fs w !! _); [by rewrite events_since_refl|].
  destruct install_config as [[|??]|]; simpl; rewrite ?events_since_refl; try done.
  destruct (open_for_writing _ _); simpl; by rewrite events_since_app.
Qed.

Section MainProperties.
Context {C : Collaborators} {S : ObjectStore} {SP : Subprocess} {D : Disk}.

Lemma decode_and_update_no_uploads ignition_file cluster_id inventory_endpoint w :
  ∃ log,
    (decode_and_update ignition_file cluster_id inventory_endpoint w).2
    = MkWorld (fs w) (trace w ++ log) ∧
    uploads log = [].
Proof.
  unfold decode_and_update. unfold mbind at 1, M_bind at 1.
  rewrite resolve_hosts_list_run.
  destruct (hosts_result cluster_id inventory_endpoint) as [hosts|ex]; simpl.
  2: { eexists. split; [done|]. apply uploads_hosts_events. }
  unfold open_read, read_text. run.
  assert (∃ log, MkWorld (fs w)
                   ((trace w ++ hosts_events cluster_id inventory_endpoint)
                      ++ [EvOpenRead ignition_file])
                 = MkWorld (fs w) (trace w ++ log) ∧ uploads log = []) as Hstop.
  { eexists. rewrite <- app_assoc. split; [done|].
    by rewrite uploads_app, uploads_hosts_events. }
  destruct (fs w !! ignition_file) as [text|]; simpl; [|apply Hstop].
  destruct (json_load text) as [data|ex]; simpl; [|apply Hstop].
  destruct (getitem data "storage") as [storage|ex]; simpl; [|apply Hstop].
  destruct (getitem storage "files") as [storage_files|ex]; simpl; [|apply Hstop].
  destruct (py_iter storage_files) as [items|ex]; simpl; [|apply Hstop].
  match goal with |- context [for_file_data items hosts ?w0] =>
    destruct (for_file_data_world items hosts w0) as [updated Hw];
    destruct (for_file_data items hosts w0) as [[[items' hosts']|ex] w'] end;
    simpl in *; subst w'; simpl.
  all: eexists; rewrite <- !app_assoc; split; [done|].
  all: by rewrite uploads_app, uploads_hosts_events, (uploads_app [_]), uploads_updates.
Qed.

(** [update_bmh_files] uploads nothing, and a run that returns has written
    the document. *)
Lemma update_bmh_files_log ignition_file cluster_id inventory_endpoint w :
  let r := update_bmh_files ignition_file cluster_id inventory_endpoint w in
  uploads (events_since w r.2) = [] ∧
  (r.1 = Ok () → ∃ text, EvWrite ignition_file text ∈ events_since w r.2).
Proof.
  intros r. subst r.
  destruct (decode_and_update_no_uploads ignition_file cluster_id inventory_endpoint w)
    as (log & Hw & Hup).
  destruct (decode_and_update ignition_file cluster_id inventory_endpoint w)
    as [[data'|ex] w1] eqn:Hrun; simpl in Hw; subst w1.
  - rewrite (update_bmh_files_persist _ _ _ _ _ _ Hrun). simpl.
    rewrite <- app_assoc, events_since_app, uploads_app, Hup. split; [done|].
    intros _. eexists. apply elem_of_app. right. apply list_elem_of_further.
    apply list_elem_of_here.
  - rewrite (update_bmh_files_failed _ _ _ _ _ _ Hrun). simpl.
    by rewrite events_since_app.
Qed.

Lemma debug_print_upload_to_s3_no_uploads install_dir w :
  uploads (events_since w (debug_print_upload_to_s3 install_dir w).2) = [].
Proof.
  rewrite debug_print_upload_to_s3_lines. simpl. rewrite events_since_app.
  unfold uploads. induction (walked_files (os_walk install_dir)) as [|[??] l IH]; done.
Qed.

Lemma subprocess_check_output_never_uploads cmd :
  never_uploads (subprocess_check_output cmd).
Proof. intros s. by exists [CallCheckOutput cmd]. Qed.

Lemma create_config_dir_never_uploads work_dir : never_uploads (create_config_dir work_dir).
Proof.
  apply never_uploads_bind; [apply subprocess_check_output_never_uploads|].
  intros _. apply never_uploads_ret.
Qed.

Lemma generate_installation_files_never_uploads work_dir config_dir :
  never_uploads (generate_installation_files work_dir config_dir).
Proof.
  intros s. unfold generate_installation_files.
  rewrite backup_restore_install_config_run. cbv zeta.
  destruct (m_files s !! _) as [text|]; [|by eexists].
  rewrite run_installer. cbv zeta. simpl.
  destruct (check_output _ _).2 as [ex|]; simpl.
  - eexists. rewrite <- app_assoc. by split.
  - destruct (_ !! _); simpl; eexists; rewrite <- !app_assoc; by split.
Qed.

(** The script up to and including [update_bmh_files]. *)
Lemma main_before_upload_never_uploads work_dir install_config cluster_id
    inventory_endpoint (rest : string → P unit) :
  (∀ config_dir, never_uploads (rest config_dir)) →
  never_uploads
    (config_dir ← create_config_dir work_dir;
     run_M (prepare_install_config config_dir install_config);;
     generate_installation_files work_dir config_dir;;
     run_M (update_bmh_files (config_dir +:+ "/bootstrap.ign") cluster_id
              inventory_endpoint);;
     rest config_dir).
Proof.
  intros Hrest.
  apply never_uploads_bind; [apply create_config_dir_never_uploads|]. intros config_dir.
  apply never_uploads_bind.
  { apply never_uploads_run_M. apply prepare_install_config_no_uploads. }
  intros _. apply never_uploads_bind; [apply generate_installation_files_never_uploads|].
  intros _. apply never_uploads_bind; [|by intros _].
  apply never_uploads_run_M. intros w. apply update_bmh_files_log.
Qed.

(** X14.  [main] uploads only when an S3 endpoint is configured, and the
    environment decides before the command line: when S3_ENDPOINT_URL is set
    to the empty text, or is not set while the argument is absent or empty,
    no run of [main] makes an upload -- the first case even if the command
    line names an endpoint. *)
Theorem main_uploads_only_with_endpoint args environ s :
  environ !! "S3_ENDPOINT_URL" = Some "" ∨
  (environ !! "S3_ENDPOINT_URL" = None ∧ truthy (args_s3_endpoint_url args) = false) →
  uploads (events_of (calls_since s (main args environ s).2)) = [].
Proof.
  intros Hendpoint.
  assert (truthy (environ_get environ "S3_ENDPOINT_URL" (args_s3_endpoint_url args))
          = false) as Hfalse.
  { unfold environ_get. by destruct Hendpoint as [->|[-> ?]]. }
  assert (never_uploads (main args environ)) as Hquiet.
  { unfold main. cbv zeta. rewrite Hfalse.
    destruct (negb _); [apply never_uploads_raise|].
    apply main_before_upload_never_uploads. intros config_dir.
    apply never_uploads_run_M. apply debug_print_upload_to_s3_no_uploads. }
  destruct (Hquiet s) as (log & Hcalls & Hup).
  unfold calls_since. by rewrite Hcalls, drop_app_length.
Qed.
Lemma create_config_dir_run work_dir s :
  create_config_dir work_dir s
  = let config_dir := os_path_join work_dir "installer_dir" in
    let cmd := Argv ["mkdir"; "-p"; config_dir] in
    (match (check_output cmd (m_files s)).2 with
     | None => Ok config_dir
     | Some ex => Raise ex
     end,
     MkMachine (check_output cmd (m_files s)).1 (m_calls s ++ [CallCheckOutput cmd])).
Proof.
  unfold create_config_dir, subprocess_check_output, run_command. runP.
  by destruct (check_output _ _).2.
Qed.

(** X15.  When the working directory is set but there is neither an install
    config in it nor one in the environment, [main] makes the directory and
    stops: it raises the exception of line 114, and neither the installer nor
    anything after it is run. *)
Theorem main_without_install_config args environ s work_dir files1 :
  let config_dir := os_path_join work_dir "installer_dir" in
  environ !! "WORK_DIR" = Some work_dir →
  work_dir ≠ "" →
  check_output (Argv ["mkdir"; "-p"; config_dir]) (m_files s) = (files1, None) →
  files1 !! os_path_join config_dir INSTALL_CONFIG = None →
  truthy (environ !! "INSTALLER_CONFIG") = false →
  let r := main args environ s in
  r.1 = Raise (Exn Exception "install config was not provided") ∧
  m_files r.2 = files1 ∧
  calls_since s r.2 = [CallCheckOutput (Argv ["mkdir"; "-p"; config_dir])].
Proof.
  intros config_dir Hwork Hne Hmkdir Hnone Hconfig r.
  assert (main args environ s
          = (Raise (Exn Exception "install config was not provided"),
             MkMachine files1
               (m_calls s ++ [CallCheckOutput (Argv ["mkdir"; "-p"; config_dir])])))
    as Hmain.
  { unfold main, environ_get. cbv zeta. rewrite Hwork.
    assert (truthy (Some work_dir) = true) as -> by by destruct work_dir.
    change (py_str (Some work_dir)) with work_dir. cbn [negb].
    unfold mbind at 1, P_bind at 1. rewrite create_config_dir_run. cbv zeta.
    fold config_dir. rewrite Hmkdir. cbn [fst snd].
    unfold mbind at 1, P_bind at 1. unfold run_M at 1. cbn [m_files m_calls].
    rewrite prepare_install_config_run. cbv zeta. cbn [fs trace]. rewrite Hnone.
    assert (match environ !! "INSTALLER_CONFIG" with
            | Some value => Some value
            | None => None
            end = environ !! "INSTALLER_CONFIG") as ->
      by by destruct (environ !! "INSTALLER_CONFIG").
    destruct (environ !! "INSTALLER_CONFIG") as [[|??]|]; try done.
    all: cbn [fst snd fs]; rewrite events_since_refl; simpl; by rewrite app_nil_r. }
  subst r. rewrite Hmain. simpl. by rewrite calls_since_app.
Qed.

Lemma never_uploads_need_write {A} path (m : P A) :
  never_uploads m → uploads_need_write path m.
Proof.
  intros Hm s. destruct (Hm s) as (log & Hcalls & Hup).
  exists log. split; [done|]. by rewrite Hup.
Qed.

Lemma uploads_need_write_bind {A B} path (m : P A) (f : A → P B) :
  never_uploads m →
  (∀ s a s1, m s = (Ok a, s1) → uploads_need_write path (f a)) →
  uploads_need_write path (m ≫= f).
Proof.
  intros Hm Hf s. unfold mbind, P_bind.
  destruct (Hm s) as (log1 & Hcalls1 & Hup1).
  destruct (m s) as [[a|ex] s1] eqn:Hrun; simpl in *.
  - destruct (Hf s a s1 Hrun s1) as (log2 & Hcalls2 & Hwrite).
    exists (log1 ++ log2)%list. rewrite Hcalls2, Hcalls1, <- app_assoc.
    split; [done|]. rewrite events_of_app, uploads_app, Hup1. simpl.
    intros Hup2. destruct (Hwrite Hup2) as [text Htext].
    exists text. apply elem_of_app. by right.
  - exists log1. split; [done|]. by rewrite Hup1.
Qed.

(** After [update_bmh_files], whatever the script goes on with. *)
Lemma update_then_upload_needs_write {A} ignition_file cluster_id inventory_endpoint
    (m : M A) :
  uploads_need_write ignition_file
    (run_M (update_bmh_files ignition_file cluster_id inventory_endpoint);; run_M m).
Proof.
  intros s. unfold mbind, P_bind. unfold run_M at 1 2.
  set (w := MkWorld (m_files s) (events_of (m_calls s))).
  destruct (update_bmh_files_log ignition_file cluster_id inventory_endpoint w)
    as [Hup Hwrite].
  destruct (update_bmh_files ignition_file cluster_id inventory_endpoint w)
    as [[[]|ex] w1]; simpl in *.
  - destruct (Hwrite eq_refl) as [text Htext].
    eexists. rewrite <- app_assoc. split; [done|]. intros _.
    exists text. apply elem_of_app. left.
    by apply (list_elem_of_fmap_2 Ev).
  - eexists. split; [done|]. by rewrite events_of_Ev, Hup.
Qed.

Lemma main_needs_write args environ work_dir :
  environ !! "WORK_DIR" = Some work_dir →
  uploads_need_write (os_path_join work_dir "installer_dir" +:+ "/bootstrap.ign")
    (main args environ).
Proof.
  intros Hwork. unfold main, environ_get. cbv zeta. rewrite Hwork.
  destruct (negb (truthy (Some work_dir))).
  { apply never_uploads_need_write, never_uploads_raise. }
  change (py_str (Some work_dir)) with work_dir.
  apply uploads_need_write_bind; [apply create_config_dir_never_uploads|].
  intros s0 config_dir s1 Hcreate.
  assert (config_dir = os_path_join work_dir "installer_dir") as ->.
  { rewrite create_config_dir_run in Hcreate. cbv zeta in Hcreate.
    destruct (check_output _ _).2; congruence. }
  apply uploads_need_write_bind.
  { apply never_uploads_run_M. apply prepare_install_config_no_uploads. }
  intros _ _ _ _.
  apply uploads_need_write_bind; [apply generate_installation_files_never_uploads|].
  intros _ _ _ _.
  destruct (truthy _); apply update_then_upload_needs_write.
Qed.

(** X16.  [main] uploads nothing before the bootstrap ignition has been
    written back: a run in which an upload is made is a run in which
    [update_bmh_files] wrote the file bootstrap.ign of the installer
    directory. *)
Theorem main_uploads_after_update args environ s :
  let calls := calls_since s (main args environ s).2 in
  uploads (events_of calls) ≠ [] →
  ∃ work_dir text,
    environ !! "WORK_DIR" = Some work_dir ∧
    Ev (EvWrite (os_path_join work_dir "installer_dir" +:+ "/bootstrap.ign") text)
      ∈ calls.
Proof.
  intros calls Hup. subst calls.
  destruct (environ !! "WORK_DIR") as [work_dir|] eqn:Hwork.
  - exists work_dir.
    destruct (main_needs_write args environ work_dir Hwork s) as (log & Hcalls & Hwrite).
    revert Hup. unfold calls_since. rewrite Hcalls, drop_app_length.
    intros Hup. destruct (Hwrite Hup) as [text Htext]. by exists text.
  - exfalso. apply Hup. unfold main, environ_get. rewrite Hwork. simpl.
    unfold calls_since. by rewrite drop_all.
Qed.
End MainProperties.

(** ** The statements of this part at work on the fixtures *)

Lemma s3_file_name_of_collision_witness :
  s3_file_name_of "cluster-1" "kubeconfig"
  = s3_file_name_of "cluster-1" "kubeconfig-noingress".
Proof.
  apply (s3_file_name_of_collision "cluster-1" "kubeconfig" "kubeconfig-noingress").
  right. left. split; reflexivity.
Defined.

Lemma prepare_install_config_keeps_or_creates_witness :
  let w := MkWorld {[ "work/other" := "x" ]} [] in
  let r := @prepare_install_config DemoScript.disk "work" (Some "apiVersion: v1") w in
  (∃ text, Some "apiVersion: v1" = Some text ∧ text ≠ "" ∧
           fs r.2 !! "work/install-config.yaml" = Some text) ∧
  fs r.2 !! "work/other" = Some "x".
Proof.
  intros w r.
  destruct (@prepare_install_config_keeps_or_creates DemoScript.disk
              "work" (Some "apiVersion: v1") w)
    as (_ & Hcreated & Hothers).
  { reflexivity. }
  split.
  - apply Hcreated. reflexivity.
  - etrans; [apply Hothers; discriminate|reflexivity].
Defined.

(** X2 on the fixtures: an empty text where the file is missing; and a text
    for a directory that is not there. *)
Lemma prepare_install_config_failures_witness :
  let w := MkWorld {[ "work/other" := "x" ]} [] in
  @prepare_install_config DemoScript.disk "work/installer_dir" (Some "") w
  = (Raise (Exn Exception "install config was not provided"), w) ∧
  @prepare_install_config DemoScript.disk_without_directory "work/installer_dir"
    (Some "apiVersion: v1") w
  = (Raise (no_such_file "work/installer_dir/install-config.yaml"),
     MkWorld {[ "work/other" := "x" ]} [EvLogInfo "writing install config to file"]).
Proof.
  intros w. split.
  - destruct (@prepare_install_config_failures DemoScript.disk
                "work/installer_dir" (Some "") w) as (Hnone & _ & _).
    apply Hnone; reflexivity.
  - destruct (@prepare_install_config_failures DemoScript.disk_without_directory
                "work/installer_dir" (Some "apiVersion: v1") w) as (_ & _ & Hopen).
    apply (Hopen (no_such_file "work/installer_dir/install-config.yaml")); reflexivity.
Defined.

Lemma prepare_install_config_idempotent_witness :
  let w := MkWorld ∅ [] in
  let r := @prepare_install_config DemoScript.disk "work" (Some "apiVersion: v1") w in
  @prepare_install_config DemoScript.disk "work" None r.2 = (Ok (), r.2).
Proof.
  intros w r.
  apply (@prepare_install_config_idempotent DemoScript.disk
           "work" (Some "apiVersion: v1") None w).
  reflexivity.
Defined.

Lemma upload_to_s3_stops_at_first_error_witness :
  let w := MkWorld ∅ [] in
  let r := @upload_to_s3 DemoScript.store_rejecting_metadata "http://s3:9000" "test"
             "accessKey1" "verySecretKey1" "installer_dir" "cluster-1" w in
  r.1 = Raise (Exn (OtherException "S3UploadFailedError") "Failed to upload") ∧
  uploads (events_since w r.2)
  = [("installer_dir/bootstrap.ign", "test", "cluster-1/bootstrap.ign");
     ("installer_dir/master.ign", "test", "cluster-1/master.ign");
     ("installer_dir/metadata.json", "test", "cluster-1/metadata.json")].
Proof.
  intros w r.
  apply (@upload_to_s3_stops_at_first_error DemoScript.store_rejecting_metadata
           "http://s3:9000" "test" "accessKey1" "verySecretKey1" "installer_dir"
           "cluster-1" w () [] "installer_dir" ["auth"]
           ["bootstrap.ign"; "master.ign"] "metadata.json" []
           [("installer_dir/auth", [], ["kubeconfig"; "kubeadmin-password"])]).
  - reflexivity.
  - reflexivity.
  - intros local_file s3_file log ex' Hin Hup. exfalso.
    apply list_elem_of_In in Hin. vm_compute in Hin.
    destruct Hin as [[= <- <-]|[[= <- <-]|[]]]; vm_compute in Hup; discriminate Hup.
  - reflexivity.
  - reflexivity.
Defined.

Lemma upload_to_s3_leaves_files_witness :
  let w := MkWorld {[ Demo.ignition_file := "{}" ]} [] in
  @upload_to_s3 DemoScript.store_out_of_reach "nowhere" "test" "accessKey1"
    "verySecretKey1" "installer_dir" "cluster-1" w
  = (Raise (Exn (OtherException "ValueError") "Invalid endpoint: nowhere"), w).
Proof.
  intros w.
  apply (@upload_to_s3_leaves_files DemoScript.store_out_of_reach "nowhere" "test"
           "accessKey1" "verySecretKey1" "installer_dir" "cluster-1" w).
  reflexivity.
Defined.

Lemma update_bmh_files_updates_in_order_witness :
  let files := [Demo.bmh "master-0"; Demo.motd; Demo.bmh "master-1"] in
  let w := Demo.world files in
  updates (events_since w
             (@update_bmh_files Demo.collaborators Demo.ignition_file "cluster-1"
                None w).2)
  `prefix_of` [Demo.bmh "master-0"; Demo.bmh "master-1"].
Proof.
  intros files w.
  apply (@update_bmh_files_updates_in_order Demo.collaborators Demo.ignition_file
           "cluster-1" None w (MiniJson.print (Demo.document files))
           (Demo.document files) files).
  all: vm_compute; reflexivity.
Defined.

Lemma update_bmh_files_touches_one_file_witness :
  let w := MkWorld {[ "installer_dir/master.ign" := "{}" ]} [] in
  let r := @update_bmh_files Demo.collaborators Demo.ignition_file "cluster-1" None w in
  fs r.2 !! "installer_dir/master.ign" = Some "{}" ∧ fs r.2 = fs w.
Proof.
  intros w r.
  destruct (@update_bmh_files_touches_one_file Demo.collaborators Demo.ignition_file
              "cluster-1" None w) as (Hothers & Hmissing & _).
  split.
  - etrans; [apply Hothers; discriminate|reflexivity].
  - apply Hmissing. reflexivity.
Defined.

Lemma backup_restore_install_config_restores_witness :
  let body : P unit :=
    λ s, (Ok (), MkMachine (delete "work/installer_dir/install-config.yaml" (m_files s))
                           (m_calls s)) in
  let r := @backup_restore_install_config unit "work/installer_dir" body
             DemoScript.prepared in
  r.1 = Ok () ∧
  m_files r.2 !! "work/installer_dir/install-config.yaml" = Some "apiVersion: v1" ∧
  m_files r.2 !! "work/installer_dir/backup-install-config.yaml" = None.
Proof.
  intros body r.
  destruct (@backup_restore_install_config_restores unit "work/installer_dir" body
              DemoScript.prepared "apiVersion: v1" () (body (MkMachine
                (<["work/installer_dir/backup-install-config.yaml" := "apiVersion: v1"]>
                   (m_files DemoScript.prepared))
                (m_calls DemoScript.prepared ++
                 [Ev (EvLogInfo
                        "Saving install-config.yaml cause it will be deleted by installer");
                  CallCopyfile "work/installer_dir/install-config.yaml"
                    "work/installer_dir/backup-install-config.yaml"]))).2)
    as [Hsaved _].
  { reflexivity. }
  { reflexivity. }
  destruct (Hsaved "apiVersion: v1") as (Hok & Hconfig & Hbackup & _).
  { vm_compute. reflexivity. }
  split; [exact Hok|]. split; [exact Hconfig|exact Hbackup].
Defined.

Lemma generate_installation_files_restores_witness :
  let r := @generate_installation_files DemoScript.installer "work" "work/installer_dir"
             DemoScript.prepared in
  r.1 = Ok () ∧
  m_files r.2 !! "work/installer_dir/install-config.yaml" = Some "apiVersion: v1" ∧
  m_files r.2 !! "work/installer_dir/backup-install-config.yaml" = None.
Proof.
  intros r.
  destruct (@generate_installation_files_restores DemoScript.installer "work"
              "work/installer_dir" DemoScript.prepared "apiVersion: v1"
              (@check_output DemoScript.installer
                 (@installer_command "work" "work/installer_dir")
                 (<["work/installer_dir/backup-install-config.yaml" := "apiVersion: v1"]>
                    (m_files DemoScript.prepared))).1)
    as (Hok & Hconfig & Hbackup & _).
  { reflexivity. }
  { reflexivity. }
  { vm_compute. reflexivity. }
  split; [exact Hok|]. split; [exact Hconfig|exact Hbackup].
Defined.

Lemma generate_installation_files_failure_skips_restore_witness :
  let r := @generate_installation_files DemoScript.failing_installer "work"
             "work/installer_dir" DemoScript.prepared in
  r.1 = Raise (Exn Exception
                 (failed_to_generate +:+ "Command returned non-zero exit status 1")) ∧
  m_files r.2 !! "work/installer_dir/install-config.yaml" = None ∧
  m_files r.2 !! "work/installer_dir/backup-install-config.yaml" = Some "apiVersion: v1".
Proof.
  intros r.
  destruct (@generate_installation_files_failure_skips_restore
              DemoScript.failing_installer "work" "work/installer_dir"
              DemoScript.prepared "apiVersion: v1"
              (@check_output DemoScript.failing_installer
                 (@installer_command "work" "work/installer_dir")
                 (<["work/installer_dir/backup-install-config.yaml" := "apiVersion: v1"]>
                    (m_files DemoScript.prepared))).1
              (Exn (OtherException "CalledProcessError")
                   "Command returned non-zero exit status 1"))
    as (Hraise & Hfiles & _).
  { reflexivity. }
  { reflexivity. }
  { reflexivity. }
  split; [exact Hraise|]. subst r. rewrite Hfiles. split; vm_compute; reflexivity.
Defined.

Lemma generate_installation_files_needs_config_witness :
  let r := @generate_installation_files DemoScript.installer "work" "work/installer_dir"
             DemoScript.machine in
  r.1 = Raise (no_such_file "work/installer_dir/install-config.yaml") ∧
  m_files r.2 = m_files DemoScript.machine ∧
  commands (calls_since DemoScript.machine r.2) = [].
Proof.
  intros r.
  apply (@generate_installation_files_needs_config DemoScript.installer "work"
           "work/installer_dir" DemoScript.machine).
  reflexivity.
Defined.

Lemma main_uploads_only_with_endpoint_witness :
  uploads (events_of (calls_since DemoScript.machine
    (@main Demo.collaborators Demo.store DemoScript.installer DemoScript.disk
       (MkArgs (Some "http://s3:9000") "test")
       (<["S3_ENDPOINT_URL" := ""]> DemoScript.environ) DemoScript.machine).2)) = [].
Proof.
  apply (@main_uploads_only_with_endpoint Demo.collaborators Demo.store
           DemoScript.installer DemoScript.disk (MkArgs (Some "http://s3:9000") "test")
           (<["S3_ENDPOINT_URL" := ""]> DemoScript.environ) DemoScript.machine).
  left. reflexivity.
Defined.

Lemma main_without_install_config_witness :
  let r := @main Demo.collaborators Demo.store DemoScript.installer DemoScript.disk
             (MkArgs None "test")
             {[ "WORK_DIR" := "work" ]} DemoScript.machine in
  r.1 = Raise (Exn Exception "install config was not provided") ∧
  m_files r.2 = ∅ ∧
  calls_since DemoScript.machine r.2
  = [CallCheckOutput (Argv ["mkdir"; "-p"; "work/installer_dir"])].
Proof.
  intros r.
  apply (@main_without_install_config Demo.collaborators Demo.store DemoScript.installer
           DemoScript.disk (MkArgs None "test") {[ "WORK_DIR" := "work" ]} DemoScript.machine "work" ∅).
  all: try reflexivity. discriminate.
Defined.

Lemma main_uploads_after_update_witness :
  ∃ work_dir text,
    DemoScript.environ !! "WORK_DIR" = Some work_dir ∧
    Ev (EvWrite (os_path_join work_dir "installer_dir" +:+ "/bootstrap.ign") text)
      ∈ calls_since DemoScript.machine
          (@main Demo.collaborators Demo.store DemoScript.installer DemoScript.disk
             (MkArgs (Some "http://s3:9000") "test") DemoScript.environ
             DemoScript.machine).2.
Proof.
  apply (@main_uploads_after_update Demo.collaborators Demo.store DemoScript.installer
           DemoScript.disk (MkArgs (Some "http://s3:9000") "test") DemoScript.environ DemoScript.machine).
  vm_compute. discriminate.
Defined.
